(** * Voice-to-text client: resampler, voice activity detection, session handling

    A shallow embedding of the two content scripts of the browser extension
    (the batch client, [content.ts], and the streaming client) together with
    the properties of their audio pipeline and session logic.

    JavaScript numbers are IEEE 754 binary64 values; they are modelled by
    Rocq's primitive floats, which implement the same format with the same
    rounding, so that every arithmetic step of the source is reproduced bit
    for bit. *)

From Stdlib Require Import ZArith List Bool Lia Floats String Ascii.
From Stdlib Require Uint63 DecimalString.
From stdpp Require Import base option list gmap.
Import ListNotations.

Local Open Scope Z_scope.

(** ** JavaScript numbers and typed-array conversions *)

Module JS.

Definition of_Z (z : Z) : float :=
  if z <? 0 then (- of_uint63 (Uint63.of_Z (- z)))%float
  else of_uint63 (Uint63.of_Z z).

Definition of_nat (n : nat) : float := of_Z (Z.of_nat n).

(** A finite float is [±m * 2^e]; [truncate] is its integer part. *)
Definition truncate (x : float) : option Z :=
  match Prim2SF x with
  | S754_zero _ => Some 0
  | S754_finite s m e =>
      Some (cond_Zopp s (if 0 <=? e then Zpos m * 2 ^ e
                         else Zpos m / 2 ^ (- e)))
  | S754_infinity _ | S754_nan => None
  end.

(** The value of [Math.floor] is an integer, NaN or an infinity; it is kept
    as such, a float that is an integer being that integer. *)
Inductive integral :=
| Int (z : Z)
| NaN
| Infinity (negative : bool).

Definition Math_floor (x : float) : integral :=
  match Prim2SF x with
  | S754_zero _ => Int 0
  | S754_finite s m e =>
      Int (if 0 <=? e then cond_Zopp s (Zpos m) * 2 ^ e
           else cond_Zopp s (Zpos m) / 2 ^ (- e))
  | S754_infinity s => Infinity s
  | S754_nan => NaN
  end.

(** [i < x] for an array position [i]. *)
Definition position_lt (i : nat) (x : integral) : bool :=
  match x with
  | Int z => Z.of_nat i <? z
  | Infinity false => true
  | Infinity true | NaN => false
  end.

(** [Math.min] and [Math.max] on two arguments, one of them a non-zero
    constant (the sign of zero plays no part then). *)
Definition Math_min (a b : float) : float :=
  if is_nan a || is_nan b then nan
  else if (b <? a)%float then b else a.

Definition Math_max (a b : float) : float :=
  if is_nan a || is_nan b then nan
  else if (a <? b)%float then b else a.

Definition Math_sqrt (x : float) : float := PrimFloat.sqrt x.

(** [x || 0] on a number: NaN and both zeros are falsy. *)
Definition or_zero (x : float) : float :=
  if is_nan x || PrimFloat.is_zero x then 0%float else x.

(** Storing a number into an [Int16Array]: truncate towards zero, wrap
    modulo 2^16 into the signed range; NaN and the infinities store 0. *)
Definition ToInt16 (x : float) : Z :=
  match truncate x with
  | Some z => (z + 32768) mod 65536 - 32768
  | None => 0
  end.

(** The length argument of [new Int16Array(len)]: NaN counts as 0; a
    negative length, or one above 2^53 - 1, raises a [RangeError] ([None]). *)
Definition ToIndex (len : integral) : option nat :=
  match len with
  | NaN => Some 0%nat
  | Int z =>
      if (z <? 0) || (9007199254740991 <? z) then None
      else Some (Z.to_nat z)
  | Infinity _ => None
  end.

(** A number used as the first position of a loop over an array. *)
Definition as_position (x : integral) : option nat :=
  match x with
  | Int z => if z <? 0 then None else Some (Z.to_nat z)
  | NaN | Infinity _ => None
  end.

End JS.

(** ** The resampler ([downsampleFloat32], [floatTo16BitPCM])

    Both content scripts carry the same two functions. *)

Module Resampler.
Import JS.

(** The argument of [floatTo16BitPCM]: [Float32Array | Int16Array]. *)
Inductive Samples :=
| Float32Array (a : list float)
| Int16Array (a : list Z).

Definition clamp (x : float) : float := Math_max (-1) (Math_min 1 x).

Definition floatTo16BitPCM (input : Samples) : list Z :=
  match input with
  | Int16Array a => a
  | Float32Array a =>
      map (fun x =>
             let s := clamp x in
             ToInt16 (if (s <? 0)%float then s * 32768 else s * 32767)%float)
          a
  end.

(** The inner [for] loop: [rest] is the part of the buffer from index [i]
    on, so the test [i < buffer.length] is the test that [rest] is not
    empty. *)
Fixpoint window_loop (rest : list float) (i : nat) (nextOffsetBuffer : integral)
         (acc : float) (count : nat) : float * nat :=
  match rest with
  | [] => (acc, count)
  | x :: rest' =>
      if position_lt i nextOffsetBuffer
      then window_loop rest' (S i) nextOffsetBuffer (acc + x)%float (S count)
      else (acc, count)
  end.

(** [offsetBuffer] is 0 or a result of [Math.floor]; when it is NaN or
    positive infinity the loop test fails at once.  (It is never negative:
    the loop is entered with a positive [newLen] only.) *)
Definition window (buffer : list float) (offsetBuffer nextOffsetBuffer : integral)
  : float * nat :=
  match as_position offsetBuffer with
  | Some i => window_loop (drop i buffer) i nextOffsetBuffer 0%float 0%nat
  | None => (0%float, 0%nat)
  end.

(** One pass of the [while] loop writes [result[offsetResult]]. *)
Definition output_sample (acc : float) (count : nat) : Z :=
  let sample := (acc / of_nat (if Nat.eqb count 0 then 1 else count))%float in
  ToInt16 (clamp sample * 32767)%float.

(** The [while (offsetResult < newLen)] loop; [remaining] is
    [newLen - offsetResult]. *)
Fixpoint decimate (buffer : list float) (ratio : float) (remaining : nat)
         (offsetResult : nat) (offsetBuffer : integral) : list Z :=
  match remaining with
  | O => []
  | S remaining' =>
      let nextOffsetBuffer := Math_floor (of_nat (offsetResult + 1) * ratio)%float in
      let '(acc, count) := window buffer offsetBuffer nextOffsetBuffer in
      output_sample acc count
        :: decimate buffer ratio remaining' (S offsetResult) nextOffsetBuffer
  end.

(** [None] is the [RangeError] of [new Int16Array(newLen)]. *)
Definition downsampleFloat32 (buffer : list float) (inRate outRate : float)
  : option (list Z) :=
  if (outRate =? inRate)%float then Some (floatTo16BitPCM (Float32Array buffer))
  else if (inRate <? outRate)%float then Some (floatTo16BitPCM (Float32Array buffer))
  else
    let ratio := (inRate / outRate)%float in
    let newLen := Math_floor (of_nat (length buffer) / ratio)%float in
    match ToIndex newLen with
    | Some n => Some (decimate buffer ratio n 0%nat (Int 0))
    | None => None
    end.

End Resampler.

(** ** Strings and the target element

    A JavaScript string is a sequence of UTF-16 code units. *)

Module Dom.

Definition text := list N.

Definition str (s : string) : text :=
  map (fun c => N_of_ascii c) (list_ascii_of_string s).

Definition text_eqb (a b : text) : bool :=
  bool_decide (a = b).

(** The white space and line terminator code units that [trim] strips. *)
Definition is_whitespace (c : N) : bool :=
  ((9 <=? c) && (c <=? 13) || (c =? 32) || (c =? 160) || (c =? 5760)
   || (8192 <=? c) && (c <=? 8202) || (c =? 8232) || (c =? 8233)
   || (c =? 8239) || (c =? 8287) || (c =? 12288) || (c =? 65279))%N.

Fixpoint trimStart (s : text) : text :=
  match s with
  | c :: s' => if is_whitespace c then trimStart s' else s
  | [] => []
  end.

Definition trim (s : text) : text := rev (trimStart (rev (trimStart s))).

Fixpoint startsWith (s prefix : text) : bool :=
  match prefix, s with
  | [], _ => true
  | p :: prefix', c :: s' => (c =? p)%N && startsWith s' prefix'
  | _ :: _, [] => false
  end.

(** [s.slice(a, b)] and [s.slice(a)] for non-negative positions. *)
Definition slice (s : text) (a b : nat) : text := take (b - a) (drop a s).
Definition slice_from (s : text) (a : nat) : text := drop a s.

(** An [<input>] or [<textarea>]; the selection is [null] for the input
    types that have none. *)
Record TextField := {
  value : text;
  selectionStart : option nat;
  selectionEnd : option nat
}.

(** A [contenteditable] host (ProseMirror editors and [#prompt-textarea]
    are such hosts).  Of its document only what the scripts put there is
    kept: the text of the live [<span data-vt-live>], when one is attached,
    and the text nodes inserted so far. *)
Record RichEditor := {
  liveSpan : option text;
  inserted : list text
}.

Inductive Element :=
| Field (f : TextField)
| Editor (e : RichEditor).

Definition set_value (newValue : text) (caret : nat) : TextField :=
  let c := Nat.min caret (length newValue) in
  {| value := newValue; selectionStart := Some c; selectionEnd := Some c |}.

Definition insertTextAtCursor (el : Element) (t : text) : Element :=
  match el with
  | Editor e => Editor {| liveSpan := liveSpan e; inserted := inserted e ++ [t] |}
  | Field input =>
      let start := default (length (value input)) (selectionStart input) in
      let end_ := default (length (value input)) (selectionEnd input) in
      let newValue := slice (value input) 0 start ++ t ++ slice_from (value input) end_ in
      Field (set_value newValue (start + length t))
  end.

Inductive ToastKind := success | error | info.

(** The mic button, once [ensureMicBtn] has created it. *)
Inductive Button := BtnIdle | BtnRecording | BtnProcessing.

Definition ellipsis : N := 8230.
Definition check_mark : N := 10003.

End Dom.

Set Warnings "-inexact-float".

(** ** The batch client ([content.ts])

    The script keeps its state in the variables of [main]; they are the
    fields of [State].  A handler runs to completion, so it is a function
    from state to state; what it does to the outside (toasts, the console,
    the network) is appended to [effects].  An [async] function is cut at its
    [await]s: each piece is a handler of its own. *)

Module Batch.
Import JS Resampler Dom.

Definition RECORD_SAMPLE_RATE : float := 16000.

(** The outcome of [fetch] followed by [response.json()]. *)
Inductive Response :=
| NetworkError (message : text)
| HttpError (status : Z)
| Json (error_ : option text) (text_ : option text).

Inductive Effect :=
| Toast (msg : text) (kind : ToastKind) (timeout : Z)
| LogInfo (msg : text)
| LogError (msg : text)
| Fetch (audio : list Z) (lang : text).

(** The five VAD variables. *)
Record VAD := {
  noiseFloor : float;
  vadHistory : list float;
  voiceDetectedFrames : Z;
  silenceFrames : Z;
  hasDetectedVoice : bool
}.

(** [audioCtx] carries the context's [sampleRate]; [procNode], [sourceNode]
    and [micStream] are set and cleared together with it.  [timers] is the
    window's table of armed [setTimeout] timers of [startRecording], each
    with its deadline.  [pendingStarts] counts the calls of
    [startRecording] waiting for [getUserMedia], [suspended] holds the
    [combinedAudio] of the calls of [stopRecording] waiting for
    [getServerUrl], and [inflight] counts those waiting for the server. *)
Record State := {
  micBtn : option Button;
  micLevel : float;
  currentEl : option Element;
  isRecording : bool;
  audioCtx : option float;
  recordedChunks : list (list Z);
  recordingStartTime : Z;
  maxRecordingTimer : option positive;
  vad : VAD;
  timers : gmap positive Z;
  nextTimer : positive;
  pendingStarts : nat;
  suspended : list (list Z);
  inflight : nat;
  effects : list Effect
}.

Definition set_noiseFloor (v : float) (st : VAD) : VAD :=
  {| noiseFloor := v; vadHistory := vadHistory st; voiceDetectedFrames := voiceDetectedFrames st; silenceFrames := silenceFrames st; hasDetectedVoice := hasDetectedVoice st |}.
Definition set_vadHistory (v : list float) (st : VAD) : VAD :=
  {| noiseFloor := noiseFloor st; vadHistory := v; voiceDetectedFrames := voiceDetectedFrames st; silenceFrames := silenceFrames st; hasDetectedVoice := hasDetectedVoice st |}.
Definition set_voiceDetectedFrames (v : Z) (st : VAD) : VAD :=
  {| noiseFloor := noiseFloor st; vadHistory := vadHistory st; voiceDetectedFrames := v; silenceFrames := silenceFrames st; hasDetectedVoice := hasDetectedVoice st |}.
Definition set_silenceFrames (v : Z) (st : VAD) : VAD :=
  {| noiseFloor := noiseFloor st; vadHistory := vadHistory st; voiceDetectedFrames := voiceDetectedFrames st; silenceFrames := v; hasDetectedVoice := hasDetectedVoice st |}.
Definition set_hasDetectedVoice (v : bool) (st : VAD) : VAD :=
  {| noiseFloor := noiseFloor st; vadHistory := vadHistory st; voiceDetectedFrames := voiceDetectedFrames st; silenceFrames := silenceFrames st; hasDetectedVoice := v |}.

Definition set_micBtn (v : option Button) (st : State) : State :=
  {| micBtn := v; micLevel := micLevel st; currentEl := currentEl st; isRecording := isRecording st; audioCtx := audioCtx st; recordedChunks := recordedChunks st; recordingStartTime := recordingStartTime st; maxRecordingTimer := maxRecordingTimer st; vad := vad st; timers := timers st; nextTimer := nextTimer st; pendingStarts := pendingStarts st; suspended := suspended st; inflight := inflight st; effects := effects st |}.
Definition set_micLevel (v : float) (st : State) : State :=
  {| micBtn := micBtn st; micLevel := v; currentEl := currentEl st; isRecording := isRecording st; audioCtx := audioCtx st; recordedChunks := recordedChunks st; recordingStartTime := recordingStartTime st; maxRecordingTimer := maxRecordingTimer st; vad := vad st; timers := timers st; nextTimer := nextTimer st; pendingStarts := pendingStarts st; suspended := suspended st; inflight := inflight st; effects := effects st |}.
Definition set_currentEl (v : option Element) (st : State) : State :=
  {| micBtn := micBtn st; micLevel := micLevel st; currentEl := v; isRecording := isRecording st; audioCtx := audioCtx st; recordedChunks := recordedChunks st; recordingStartTime := recordingStartTime st; maxRecordingTimer := maxRecordingTimer st; vad := vad st; timers := timers st; nextTimer := nextTimer st; pendingStarts := pendingStarts st; suspended := suspended st; inflight := inflight st; effects := effects st |}.
Definition set_isRecording (v : bool) (st : State) : State :=
  {| micBtn := micBtn st; micLevel := micLevel st; currentEl := currentEl st; isRecording := v; audioCtx := audioCtx st; recordedChunks := recordedChunks st; recordingStartTime := recordingStartTime st; maxRecordingTimer := maxRecordingTimer st; vad := vad st; timers := timers st; nextTimer := nextTimer st; pendingStarts := pendingStarts st; suspended := suspended st; inflight := inflight st; effects := effects st |}.
Definition set_audioCtx (v : option float) (st : State) : State :=
  {| micBtn := micBtn st; micLevel := micLevel st; currentEl := currentEl st; isRecording := isRecording st; audioCtx := v; recordedChunks := recordedChunks st; recordingStartTime := recordingStartTime st; maxRecordingTimer := maxRecordingTimer st; vad := vad st; timers := timers st; nextTimer := nextTimer st; pendingStarts := pendingStarts st; suspended := suspended st; inflight := inflight st; effects := effects st |}.
Definition set_recordedChunks (v : list (list Z)) (st : State) : State :=
  {| micBtn := micBtn st; micLevel := micLevel st; currentEl := currentEl st; isRecording := isRecording st; audioCtx := audioCtx st; recordedChunks := v; recordingStartTime := recordingStartTime st; maxRecordingTimer := maxRecordingTimer st; vad := vad st; timers := timers st; nextTimer := nextTimer st; pendingStarts := pendingStarts st; suspended := suspended st; inflight := inflight st; effects := effects st |}.
Definition set_recordingStartTime (v : Z) (st : State) : State :=
  {| micBtn := micBtn st; micLevel := micLevel st; currentEl := currentEl st; isRecording := isRecording st; audioCtx := audioCtx st; recordedChunks := recordedChunks st; recordingStartTime := v; maxRecordingTimer := maxRecordingTimer st; vad := vad st; timers := timers st; nextTimer := nextTimer st; pendingStarts := pendingStarts st; suspended := suspended st; inflight := inflight st; effects := effects st |}.
Definition set_maxRecordingTimer (v : option positive) (st : State) : State :=
  {| micBtn := micBtn st; micLevel := micLevel st; currentEl := currentEl st; isRecording := isRecording st; audioCtx := audioCtx st; recordedChunks := recordedChunks st; recordingStartTime := recordingStartTime st; maxRecordingTimer := v; vad := vad st; timers := timers st; nextTimer := nextTimer st; pendingStarts := pendingStarts st; suspended := suspended st; inflight := inflight st; effects := effects st |}.
Definition set_vad (v : VAD) (st : State) : State :=
  {| micBtn := micBtn st; micLevel := micLevel st; currentEl := currentEl st; isRecording := isRecording st; audioCtx := audioCtx st; recordedChunks := recordedChunks st; recordingStartTime := recordingStartTime st; maxRecordingTimer := maxRecordingTimer st; vad := v; timers := timers st; nextTimer := nextTimer st; pendingStarts := pendingStarts st; suspended := suspended st; inflight := inflight st; effects := effects st |}.
Definition set_timers (v : gmap positive Z) (st : State) : State :=
  {| micBtn := micBtn st; micLevel := micLevel st; currentEl := currentEl st; isRecording := isRecording st; audioCtx := audioCtx st; recordedChunks := recordedChunks st; recordingStartTime := recordingStartTime st; maxRecordingTimer := maxRecordingTimer st; vad := vad st; timers := v; nextTimer := nextTimer st; pendingStarts := pendingStarts st; suspended := suspended st; inflight := inflight st; effects := effects st |}.
Definition set_nextTimer (v : positive) (st : State) : State :=
  {| micBtn := micBtn st; micLevel := micLevel st; currentEl := currentEl st; isRecording := isRecording st; audioCtx := audioCtx st; recordedChunks := recordedChunks st; recordingStartTime := recordingStartTime st; maxRecordingTimer := maxRecordingTimer st; vad := vad st; timers := timers st; nextTimer := v; pendingStarts := pendingStarts st; suspended := suspended st; inflight := inflight st; effects := effects st |}.
Definition set_pendingStarts (v : nat) (st : State) : State :=
  {| micBtn := micBtn st; micLevel := micLevel st; currentEl := currentEl st; isRecording := isRecording st; audioCtx := audioCtx st; recordedChunks := recordedChunks st; recordingStartTime := recordingStartTime st; maxRecordingTimer := maxRecordingTimer st; vad := vad st; timers := timers st; nextTimer := nextTimer st; pendingStarts := v; suspended := suspended st; inflight := inflight st; effects := effects st |}.
Definition set_suspended (v : list (list Z)) (st : State) : State :=
  {| micBtn := micBtn st; micLevel := micLevel st; currentEl := currentEl st; isRecording := isRecording st; audioCtx := audioCtx st; recordedChunks := recordedChunks st; recordingStartTime := recordingStartTime st; maxRecordingTimer := maxRecordingTimer st; vad := vad st; timers := timers st; nextTimer := nextTimer st; pendingStarts := pendingStarts st; suspended := v; inflight := inflight st; effects := effects st |}.
Definition set_inflight (v : nat) (st : State) : State :=
  {| micBtn := micBtn st; micLevel := micLevel st; currentEl := currentEl st; isRecording := isRecording st; audioCtx := audioCtx st; recordedChunks := recordedChunks st; recordingStartTime := recordingStartTime st; maxRecordingTimer := maxRecordingTimer st; vad := vad st; timers := timers st; nextTimer := nextTimer st; pendingStarts := pendingStarts st; suspended := suspended st; inflight := v; effects := effects st |}.
Definition set_effects (v : list Effect) (st : State) : State :=
  {| micBtn := micBtn st; micLevel := micLevel st; currentEl := currentEl st; isRecording := isRecording st; audioCtx := audioCtx st; recordedChunks := recordedChunks st; recordingStartTime := recordingStartTime st; maxRecordingTimer := maxRecordingTimer st; vad := vad st; timers := timers st; nextTimer := nextTimer st; pendingStarts := pendingStarts st; suspended := suspended st; inflight := inflight st; effects := v |}.

Definition initial (el : option Element) : State :=
  {| micBtn := None; micLevel := 0; currentEl := el; isRecording := false;
     audioCtx := None; recordedChunks := []; recordingStartTime := 0;
     maxRecordingTimer := None;
     vad := {| noiseFloor := 0.002; vadHistory := []; voiceDetectedFrames := 0;
               silenceFrames := 0; hasDetectedVoice := false |};
     timers := ∅; nextTimer := 1%positive; pendingStarts := 0; suspended := [];
     inflight := 0; effects := [] |}.

Definition emit (e : Effect) (st : State) : State :=
  set_effects (effects st ++ [e]) st.

Definition showToast (msg : text) (kind : ToastKind) (timeout : Z) : State -> State :=
  emit (Toast msg kind timeout).

Definition setBtn (b : Button) (st : State) : State :=
  match micBtn st with
  | Some _ => set_micBtn (Some b) st
  | None => st
  end.

Definition setBtnRecording : State -> State := setBtn BtnRecording.
Definition setBtnProcessing : State -> State := setBtn BtnProcessing.
Definition resetBtn : State -> State := setBtn BtnIdle.

Definition cleanupRecording (st : State) : State :=
  let st := set_audioCtx None st in
  match maxRecordingTimer st with
  | Some id => set_maxRecordingTimer None (set_timers (delete id (timers st)) st)
  | None => st
  end.

(** [stopRecording] up to [await getServerUrl()]. *)
Definition stopRecording (st : State) : State :=
  if negb (isRecording st) then st
  else
    let st := set_isRecording false st in
    let st := setBtnProcessing st in
    let st := showToast (str "Transcribing" ++ [ellipsis]) info 3200 st in
    let st := cleanupRecording st in
    let combinedAudio := concat (recordedChunks st) in
    if Nat.eqb (length combinedAudio) 0 then
      let st := showToast (str "No audio recorded.") info 1600 st in
      let st := resetBtn st in
      (* finally *)
      set_recordedChunks [] (resetBtn st)
    else set_suspended (suspended st ++ [combinedAudio]) st.

(** The [finally] block of [stopRecording]. *)
Definition stopRecording_finally (st : State) : State :=
  set_recordedChunks [] (resetBtn st).

(** [getServerUrl] has answered: the upload is sent. *)
Definition stopRecording_upload (st : State) : State :=
  match suspended st with
  | combinedAudio :: rest =>
      emit (Fetch combinedAudio (str "en"))
           (set_inflight (S (inflight st)) (set_suspended rest st))
  | [] => st
  end.

Definition decimal (z : Z) : text := str (DecimalString.NilZero.string_of_int (Z.to_int z)).

Definition stopRecording_catch (message : text) (st : State) : State :=
  let st := emit (LogError (str "Transcription failed:")) st in
  showToast (str "Error: " ++ message) error 3200 st.

(** The server has answered (or [fetch] has failed). *)
Definition stopRecording_response (r : Response) (st : State) : State :=
  match inflight st with
  | O => st
  | S n =>
      let st := set_inflight n st in
      let st :=
        match r with
        | NetworkError message => stopRecording_catch message st
        | HttpError status => stopRecording_catch (str "Server error: " ++ decimal status) st
        | Json (Some (c :: e)) _ => stopRecording_catch (c :: e) st
        | Json _ t =>
            let text := trim (default [] t) in
            match currentEl st, text with
            | Some el, _ :: _ =>
                let st := set_currentEl (Some (insertTextAtCursor el text)) st in
                showToast (str "Transcribed " ++ [check_mark]) success 1500 st
            | _, _ => showToast (str "No speech detected.") info 1600 st
            end
        end in
      stopRecording_finally st
  end.

(** *** Voice activity detection *)

Definition sumSquares (downsampled : list Z) : float :=
  fold_left (fun s v => (s + of_Z v * of_Z v)%float) downsampled 0%float.

Definition rmsOf (downsampled : list Z) : float :=
  or_zero (Math_sqrt (sumSquares downsampled / of_nat (length downsampled))).

(** The [for] loop from [i = 1] counting the sign changes. *)
Fixpoint zeroCrossings (downsampled : list Z) : nat :=
  match downsampled with
  | prev :: (cur :: _) as rest =>
      ((if (of_Z cur * of_Z prev <? 0)%float then 1 else 0) + zeroCrossings rest)%nat
  | _ => 0%nat
  end.

Definition zcrOf (downsampled : list Z) : float :=
  (of_nat (zeroCrossings downsampled) / of_nat (length downsampled))%float.

Definition updatedNoiseFloor (v : VAD) (rms : float) : float :=
  (noiseFloor v * 0.95 + rms * 0.05)%float.

(** [rms > dynamicVoiceThreshold && zcr > 0.02] *)
Definition voiceCandidate (noiseFloor' rms zcr : float) : bool :=
  let dynamicVoiceThreshold := (noiseFloor' * 3.5)%float in
  (dynamicVoiceThreshold <? rms)%float && (0.02 <? zcr)%float.

Definition pushHistory (history : list float) (rms : float) : list float :=
  let history := history ++ [rms] in
  if (30 <? length history)%nat then tail history else history.

(** The body of [procNode.onaudioprocess].  Reading [audioCtx!.sampleRate]
    when [audioCtx] is [null] throws, and so does a [RangeError] of the
    resampler: the handler then ends without having changed anything. *)
Definition onaudioprocess (input : list float) (st : State) : State :=
  match audioCtx st with
  | None => st
  | Some sampleRate =>
      match downsampleFloat32 input sampleRate RECORD_SAMPLE_RATE with
      | None => st
      | Some downsampled =>
          let pcm := floatTo16BitPCM (Int16Array downsampled) in
          let st := set_recordedChunks (recordedChunks st ++ [pcm]) st in
          let rms := rmsOf downsampled in
          let zcr := zcrOf downsampled in
          let v := vad st in
          let noiseFloor' := updatedNoiseFloor v rms in
          let v := set_vadHistory (pushHistory (vadHistory v) rms)
                     (set_noiseFloor noiseFloor' v) in
          let st :=
            match micBtn st with
            | Some _ => set_micLevel (Math_min 1 (rms * 20)%float) st
            | None => st
            end in
          let '(v, st) :=
            if voiceCandidate noiseFloor' rms zcr then
              let v := set_silenceFrames 0
                         (set_voiceDetectedFrames (voiceDetectedFrames v + 1) v) in
              if negb (hasDetectedVoice v) && (5 <? voiceDetectedFrames v) then
                (set_hasDetectedVoice true v,
                 showToast (str "Listening" ++ [ellipsis]) info 1200 st)
              else (v, st)
            else
              let v := if hasDetectedVoice v
                       then set_silenceFrames (silenceFrames v + 1) v else v in
              (set_voiceDetectedFrames (Z.max 0 (voiceDetectedFrames v - 1)) v, st) in
          let st := set_vad v st in
          if hasDetectedVoice v && (45 <? silenceFrames v) then
            stopRecording (emit (LogInfo (str "Stopping due to silence")) st)
          else st
      end
  end.

(** *** Starting *)

(** [startRecording] up to [await getUserMedia]. *)
Definition startRecording (st : State) : State :=
  match currentEl st with
  | None => st
  | Some _ =>
      if isRecording st then st
      else set_pendingStarts (S (pendingStarts st)) st
  end.

Definition setTimeout (deadline : Z) (st : State) : positive * State :=
  let id := nextTimer st in
  (id, set_nextTimer (Pos.succ id) (set_timers (<[id := deadline]> (timers st)) st)).

(** The rest of the [try] block, the microphone being granted at [now]. *)
Definition startRecording_granted (now : Z) (sampleRate : float) (st : State) : State :=
  let st := set_audioCtx (Some sampleRate) st in
  let st := set_recordedChunks [] st in
  let st := set_recordingStartTime now st in
  let st := set_vad {| noiseFloor := 0.002; vadHistory := [];
                       voiceDetectedFrames := 0; silenceFrames := 0;
                       hasDetectedVoice := false |} st in
  let st := set_isRecording true st in
  let st := setBtnRecording st in
  let st := showToast (str "Recording" ++ [ellipsis] ++ str " Start speaking or click to stop.")
              info 2500 st in
  let '(id, st) := setTimeout (now + 30000) st in
  set_maxRecordingTimer (Some id) st.

(** The [catch] block. *)
Definition startRecording_failed (st : State) : State :=
  let st := emit (LogError (str "Failed to start recording:")) st in
  let st := showToast (str "Microphone error.") error 2600 st in
  resetBtn (cleanupRecording st).

(** The callback given to [setTimeout]. *)
Definition maxRecordingTimeout (st : State) : State :=
  if isRecording st then stopRecording st else st.

(** The click handler of the mic button. *)
Definition micClick (st : State) : State :=
  match currentEl st with
  | None => st
  | Some _ => if isRecording st then stopRecording st else startRecording st
  end.

(** *** The event loop *)

Inductive Event :=
| Click
| MediaGranted (sampleRate : float)
| MediaFailed
| AudioProcess (input : list float)
| TimerFired (id : positive)
| ServerUrl
| Responded (r : Response).

(** One task of the event loop, run at time [now] ([Date.now()]). *)
Definition step (now : Z) (ev : Event) (st : State) : State :=
  match ev with
  | Click => micClick st
  | MediaGranted sampleRate =>
      match pendingStarts st with
      | S n => startRecording_granted now sampleRate (set_pendingStarts n st)
      | O => st
      end
  | MediaFailed =>
      match pendingStarts st with
      | S n => startRecording_failed (set_pendingStarts n st)
      | O => st
      end
  | AudioProcess input => onaudioprocess input st
  | TimerFired id =>
      match timers st !! id with
      | Some _ => maxRecordingTimeout (set_timers (delete id (timers st)) st)
      | None => st
      end
  | ServerUrl => stopRecording_upload st
  | Responded r => stopRecording_response r st
  end.

Definition run (st : State) (trace : list (Z * Event)) : State :=
  fold_left (fun s te => step (fst te) (snd te) s) trace st.

(** Feeding a sequence of capture blocks to the handler. *)
Definition feed (st : State) (blocks : list (list float)) : State :=
  fold_left (fun s input => onaudioprocess input s) blocks st.

End Batch.

(** ** The streaming client

    The same conventions as for the batch client.  [ws] is the script's
    WebSocket, with its [readyState]; [liveNode] tells whether the variable
    of that name holds the live span.  Calls of [log.debug] and the DOM
    events dispatched on the target element are not recorded. *)

Module Streaming.
Import JS Resampler Dom.

Definition STREAM_SAMPLE_RATE : float := 16000.
Definition PARTIAL_DEBOUNCE_MS : Z := 250.
Definition PARTIAL_MIN_CHARS : nat := 3.

Inductive ReadyState := CONNECTING | OPEN | CLOSING | CLOSED.

(** What the client sends. *)
Inductive ClientMsg :=
| Start (sampleRate : float) (lang : text)
| Stop
| Audio (pcm : list Z).

(** A parsed text message of the server, by its [type]; [text_] is
    [msg.text], which may be missing. *)
Inductive ServerMsg :=
| Ready
| Started
| Partial (text_ : option text)
| Final (text_ : option text)
| Error (message : text)
| Unknown.

Inductive StartFailure := NotAllowedError | NotFoundError | OtherError.

Inductive Effect :=
| Toast (msg : text) (kind : ToastKind) (timeout : Z)
| LogInfo (msg : text)
| LogError (msg : text)
| WsSend (m : ClientMsg)
| WsClose.

Record State := {
  micBtn : option Button;
  currentEl : option Element;
  isRecording : bool;
  ws : option ReadyState;
  audioCtx : option float;
  liveStartIdx : option nat;
  livePrevLen : nat;
  liveNode : bool;
  lastPartial : text;
  lastPartialTs : Z;
  effects : list Effect
}.

Definition set_micBtn (v : option Button) (st : State) : State :=
  {| micBtn := v; currentEl := currentEl st; isRecording := isRecording st; ws := ws st; audioCtx := audioCtx st; liveStartIdx := liveStartIdx st; livePrevLen := livePrevLen st; liveNode := liveNode st; lastPartial := lastPartial st; lastPartialTs := lastPartialTs st; effects := effects st |}.
Definition set_currentEl (v : option Element) (st : State) : State :=
  {| micBtn := micBtn st; currentEl := v; isRecording := isRecording st; ws := ws st; audioCtx := audioCtx st; liveStartIdx := liveStartIdx st; livePrevLen := livePrevLen st; liveNode := liveNode st; lastPartial := lastPartial st; lastPartialTs := lastPartialTs st; effects := effects st |}.
Definition set_isRecording (v : bool) (st : State) : State :=
  {| micBtn := micBtn st; currentEl := currentEl st; isRecording := v; ws := ws st; audioCtx := audioCtx st; liveStartIdx := liveStartIdx st; livePrevLen := livePrevLen st; liveNode := liveNode st; lastPartial := lastPartial st; lastPartialTs := lastPartialTs st; effects := effects st |}.
Definition set_ws (v : option ReadyState) (st : State) : State :=
  {| micBtn := micBtn st; currentEl := currentEl st; isRecording := isRecording st; ws := v; audioCtx := audioCtx st; liveStartIdx := liveStartIdx st; livePrevLen := livePrevLen st; liveNode := liveNode st; lastPartial := lastPartial st; lastPartialTs := lastPartialTs st; effects := effects st |}.
Definition set_audioCtx (v : option float) (st : State) : State :=
  {| micBtn := micBtn st; currentEl := currentEl st; isRecording := isRecording st; ws := ws st; audioCtx := v; liveStartIdx := liveStartIdx st; livePrevLen := livePrevLen st; liveNode := liveNode st; lastPartial := lastPartial st; lastPartialTs := lastPartialTs st; effects := effects st |}.
Definition set_liveStartIdx (v : option nat) (st : State) : State :=
  {| micBtn := micBtn st; currentEl := currentEl st; isRecording := isRecording st; ws := ws st; audioCtx := audioCtx st; liveStartIdx := v; livePrevLen := livePrevLen st; liveNode := liveNode st; lastPartial := lastPartial st; lastPartialTs := lastPartialTs st; effects := effects st |}.
Definition set_livePrevLen (v : nat) (st : State) : State :=
  {| micBtn := micBtn st; currentEl := currentEl st; isRecording := isRecording st; ws := ws st; audioCtx := audioCtx st; liveStartIdx := liveStartIdx st; livePrevLen := v; liveNode := liveNode st; lastPartial := lastPartial st; lastPartialTs := lastPartialTs st; effects := effects st |}.
Definition set_liveNode (v : bool) (st : State) : State :=
  {| micBtn := micBtn st; currentEl := currentEl st; isRecording := isRecording st; ws := ws st; audioCtx := audioCtx st; liveStartIdx := liveStartIdx st; livePrevLen := livePrevLen st; liveNode := v; lastPartial := lastPartial st; lastPartialTs := lastPartialTs st; effects := effects st |}.
Definition set_lastPartial (v : text) (st : State) : State :=
  {| micBtn := micBtn st; currentEl := currentEl st; isRecording := isRecording st; ws := ws st; audioCtx := audioCtx st; liveStartIdx := liveStartIdx st; livePrevLen := livePrevLen st; liveNode := liveNode st; lastPartial := v; lastPartialTs := lastPartialTs st; effects := effects st |}.
Definition set_lastPartialTs (v : Z) (st : State) : State :=
  {| micBtn := micBtn st; currentEl := currentEl st; isRecording := isRecording st; ws := ws st; audioCtx := audioCtx st; liveStartIdx := liveStartIdx st; livePrevLen := livePrevLen st; liveNode := liveNode st; lastPartial := lastPartial st; lastPartialTs := v; effects := effects st |}.
Definition set_effects (v : list Effect) (st : State) : State :=
  {| micBtn := micBtn st; currentEl := currentEl st; isRecording := isRecording st; ws := ws st; audioCtx := audioCtx st; liveStartIdx := liveStartIdx st; livePrevLen := livePrevLen st; liveNode := liveNode st; lastPartial := lastPartial st; lastPartialTs := lastPartialTs st; effects := v |}.

Definition initial (el : option Element) : State :=
  {| micBtn := None; currentEl := el; isRecording := false; ws := None;
     audioCtx := None; liveStartIdx := None; livePrevLen := 0; liveNode := false;
     lastPartial := []; lastPartialTs := 0; effects := [] |}.

Definition emit (e : Effect) (st : State) : State :=
  set_effects (effects st ++ [e]) st.

Definition showToast (msg : text) (kind : ToastKind) (timeout : Z) : State -> State :=
  emit (Toast msg kind timeout).

Definition setBtn (b : Button) (st : State) : State :=
  match micBtn st with
  | Some _ => set_micBtn (Some b) st
  | None => st
  end.

Definition setBtnRecording : State -> State := setBtn BtnRecording.
Definition setBtnProcessing : State -> State := setBtn BtnProcessing.
Definition resetBtn : State -> State := setBtn BtnIdle.

(** [ws?.send(m)] inside [try]: only an open socket transmits. *)
Definition wsSend (m : ClientMsg) (st : State) : State :=
  match ws st with
  | Some OPEN => emit (WsSend m) st
  | _ => st
  end.

(** *** Live insertion *)

Definition resetLiveState (st : State) : State :=
  set_liveNode false (set_livePrevLen 0 (set_liveStartIdx None st)).

Definition updateLiveText (el : Element) (t : text) (st : State) : State :=
  match el with
  | Editor e =>
      let span :=
        if liveNode st
        then match liveSpan e with Some _ => Some t | None => None end
        else Some t in
      set_currentEl (Some (Editor {| liveSpan := span; inserted := inserted e |}))
                    (set_liveNode true st)
  | Field input =>
      let st :=
        match liveStartIdx st with
        | None =>
            set_livePrevLen 0
              (set_liveStartIdx
                 (Some (default (length (value input)) (selectionStart input))) st)
        | Some _ => st
        end in
      let start := default 0%nat (liveStartIdx st) in
      let before := slice (value input) 0 start in
      let after := slice_from (value input) (start + livePrevLen st) in
      let st := set_livePrevLen (length t) st in
      let caret := (start + livePrevLen st)%nat in
      set_currentEl (Some (Field (set_value (before ++ t ++ after) caret))) st
  end.

Definition finalizeLiveText (el : Element) (t : text) (st : State) : State :=
  match el with
  | Editor e =>
      let el' :=
        if liveNode st
        then match liveSpan e with
             | Some _ => Editor {| liveSpan := None; inserted := inserted e ++ [t] |}
             | None => el
             end
        else insertTextAtCursor el t in
      resetLiveState (set_currentEl (Some el') (set_liveNode false st))
  | Field input =>
      let el' :=
        match liveStartIdx st with
        | None => insertTextAtCursor el t
        | Some start =>
            let before := slice (value input) 0 start in
            let after := slice_from (value input) (start + livePrevLen st) in
            Field (set_value (before ++ t ++ after) (start + length t))
        end in
      resetLiveState (set_currentEl (Some el') st)
  end.

Definition clearLiveText (st : State) : State :=
  let st :=
    match currentEl st with
    | Some (Editor e) =>
        if liveNode st
        then set_currentEl (Some (Editor {| liveSpan := None; inserted := inserted e |})) st
        else st
    | Some (Field input) =>
        match liveStartIdx st with
        | Some start =>
            let before := slice (value input) 0 start in
            let after := slice_from (value input) (start + livePrevLen st) in
            set_currentEl (Some (Field (set_value (before ++ after) (length before)))) st
        | None => st
        end
    | None => st
    end in
  resetLiveState st.

(** *** Session handling *)

Definition cleanupAudioGraph (st : State) : State := set_audioCtx None st.

Definition cleanupStreaming (error : bool) (st : State) : State :=
  let st := cleanupAudioGraph st in
  let st := match ws st with Some _ => emit WsClose st | None => st end in
  let st := set_ws None st in
  let st := set_isRecording false st in
  let st := if error then clearLiveText st else st in
  set_lastPartialTs 0 (set_lastPartial [] st).

Definition stopRecording (st : State) : State :=
  if negb (isRecording st) then st
  else
    let st := set_isRecording false st in
    let st := setBtnProcessing st in
    let st := showToast (str "Transcribing" ++ [ellipsis]) info 3200 st in
    let st := wsSend Stop st in
    cleanupAudioGraph st.

(** [startRecording] from the answer of [getUserMedia] up to the creation
    of the socket in [openWebSocket]. *)
Definition startRecording_media (sampleRate : float) (st : State) : State :=
  set_ws (Some CONNECTING) (set_audioCtx (Some sampleRate) st).

Definition ws_onopen (st : State) : State :=
  let st := match ws st with Some _ => set_ws (Some OPEN) st | None => st end in
  let st := emit (LogInfo (str "WS connected to")) st in
  wsSend (Start STREAM_SAMPLE_RATE (str "en")) st.

(** [startRecording] after [await openWebSocket()] has answered [true]. *)
Definition startRecording_opened (st : State) : State :=
  let st := set_isRecording true st in
  let st := setBtnRecording st in
  showToast (str "Recording" ++ [ellipsis] ++ str " Click the button to stop.") info 1800 st.

(** The [catch] block of [startRecording]. *)
Definition startRecording_failed (err : StartFailure) (st : State) : State :=
  let st := emit (LogError (str "Failed to start recording:")) st in
  let st :=
    match err with
    | NotAllowedError => showToast (str "Microphone permission denied.") error 2600 st
    | NotFoundError => showToast (str "No microphone found.") error 2600 st
    | OtherError => showToast (str "Failed to start recording.") error 2600 st
    end in
  resetBtn (cleanupStreaming true st).

Definition onaudioprocess (input : list float) (st : State) : State :=
  match ws st with
  | Some OPEN =>
      match audioCtx st with
      | None => st
      | Some sampleRate =>
          match downsampleFloat32 input sampleRate STREAM_SAMPLE_RATE with
          | None | Some [] => st
          | Some down => wsSend (Audio (floatTo16BitPCM (Int16Array down))) st
          end
      end
  | _ => st
  end.

Definition ws_onclose (st : State) : State :=
  let st := match ws st with Some _ => set_ws (Some CLOSED) st | None => st end in
  let st := emit (LogInfo (str "WS closed")) st in
  if isRecording st then
    let st := showToast (str "Stopped.") info 1200 st in
    resetBtn (cleanupStreaming true st)
  else st.

(** The five tests of the [partial] branch, in the order of the source;
    [t] is the trimmed text. *)
Definition partialAccepted (st : State) (t : text) (now : Z) : bool :=
  match t with
  | [] => false
  | _ :: _ =>
      if (length t <? PARTIAL_MIN_CHARS)%nat then false
      else if text_eqb t (lastPartial st) then false
      else if now - lastPartialTs st <? PARTIAL_DEBOUNCE_MS then false
      else if match lastPartial st with [] => false | _ :: _ => true end
              && startsWith (lastPartial st) t
              && (length t <? length (lastPartial st))%nat
      then false
      else true
  end.

(** [handleWsMessage(msg)], [now] being the value of [Date.now()]. *)
Definition handleWsMessage (now : Z) (msg : ServerMsg) (st : State) : State :=
  match msg with
  | Ready => emit (LogInfo (str "Server ready")) st
  | Started => emit (LogInfo (str "Streaming started")) st
  | Partial text_ =>
      let t := trim (default [] text_) in
      if partialAccepted st t now then
        let st := set_lastPartialTs now (set_lastPartial t st) in
        match currentEl st with
        | Some el => updateLiveText el t st
        | None => st
        end
      else st
  | Final text_ =>
      let t := trim (default [] text_) in
      let st := match currentEl st with
                | Some el => finalizeLiveText el t st
                | None => st
                end in
      let st := match t with
                | _ :: _ => showToast (str "Transcribed " ++ [check_mark]) success 1500 st
                | [] => showToast (str "No speech detected.") info 1600 st
                end in
      let st := resetBtn (cleanupStreaming false st) in
      set_lastPartialTs 0 (set_lastPartial [] st)
  | Error message =>
      let st := emit (LogError (str "Server error:")) st in
      let st := showToast (str "Error: " ++ message) error 3200 st in
      resetBtn (cleanupStreaming true (clearLiveText st))
  | Unknown => st
  end.

End Streaming.

Import JS Resampler Dom.

(** * Properties *)

(** ** Floats: the two facts about division that the resampler relies on *)

Section FloatFacts.

Local Open Scope float_scope.

Lemma Prim2SF_one : Prim2SF 1 = S754_finite false 4503599627370496 (-52).
Proof. reflexivity. Qed.

Lemma SFcompare_Eq_finite s1 m1 e1 s2 m2 e2 :
  SFcompare (S754_finite s1 m1 e1) (S754_finite s2 m2 e2) = Some Eq ->
  s1 = s2 /\ m1 = m2 /\ e1 = e2.
Proof.
  unfold SFcompare.
  destruct s1, s2; try discriminate.
  - destruct (Z.compare_spec e1 e2) as [He | He | He]; try discriminate.
    intros H. injection H as H. apply CompOpp_iff in H. simpl in H.
    apply Pos.compare_eq in H. subst. auto.
  - destruct (Z.compare_spec e1 e2) as [He | He | He]; try discriminate.
    intros H. injection H as H.
    apply Pos.compare_eq in H. subst. auto.
Qed.

Lemma SFdiv_same s m e :
  SFdiv prec emax (S754_finite s m e) (S754_finite s m e) = Prim2SF 1.
Proof.
  unfold SFdiv, SFdiv_core_binary.
  rewrite Z.sub_diag, Z.sub_diag.
  change (Z.min (fexp prec emax 0) 0) with (-53)%Z.
  change (0 - -53)%Z with 53%Z. cbv iota beta.
  rewrite Z.shiftl_mul_pow2 by lia.
  destruct (Z.div_eucl (Z.pos m * 2 ^ 53) (Z.pos m)) as [q r] eqn:E.
  assert (Hq : q = (2 ^ 53)%Z).
  { change q with (fst (q, r)). rewrite <- E.
    change (fst (Z.div_eucl (Z.pos m * 2 ^ 53) (Z.pos m)))
      with ((Z.pos m * 2 ^ 53) / Z.pos m)%Z.
    rewrite Z.mul_comm. apply Z.div_mul. lia. }
  assert (Hr : r = 0%Z).
  { change r with (snd (q, r)). rewrite <- E.
    change (snd (Z.div_eucl (Z.pos m * 2 ^ 53) (Z.pos m)))
      with ((Z.pos m * 2 ^ 53) mod Z.pos m)%Z.
    rewrite Z.mul_comm. apply Z.mod_mul. lia. }
  subst q r.
  assert (Hl : new_location (Z.pos m) 0 = loc_Exact).
  { unfold new_location, new_location_even, new_location_odd.
    destruct (Z.even (Z.pos m)); reflexivity. }
  rewrite Hl, xorb_nilpotent. reflexivity.
Qed.

(** Equal rates: their quotient is 1, or NaN when both are zero or
    infinite. *)
Lemma div_same (x y : float) :
  (y =? x) = true -> x / y = 1 \/ x / y = nan.
Proof.
  rewrite FloatAxioms.eqb_spec. intros H.
  assert (G : Prim2SF (x / y) = Prim2SF 1 \/ Prim2SF (x / y) = Prim2SF nan).
  { rewrite div_spec. unfold SF64div, SFeqb in *.
    destruct (Prim2SF y) as [sy | sy | | sy my ey] eqn:Ey;
      destruct (Prim2SF x) as [sx | sx | | sx mx ex] eqn:Ex;
      try (right; reflexivity);
      try (destruct sy, sx; discriminate).
    destruct (SFcompare (S754_finite sy my ey) (S754_finite sx mx ex))
      as [[ | | ] | ] eqn:E; try discriminate.
    apply SFcompare_Eq_finite in E as (-> & -> & ->).
    left. apply SFdiv_same. }
  destruct G as [G | G]; apply Prim2SF_inj in G; auto.
Qed.

Lemma div_nan (x : float) : x / nan = nan.
Proof.
  apply Prim2SF_inj. rewrite div_spec. unfold SF64div.
  change (Prim2SF nan) with S754_nan.
  destruct (Prim2SF x); reflexivity.
Qed.

End FloatFacts.

(** Checking a property of the integers [z], [z + 1], ... one by one. *)
Fixpoint range_all (P : Z -> bool) (fuel : nat) (z : Z) : bool :=
  match fuel with
  | O => true
  | S fuel' => P z && range_all P fuel' (z + 1)
  end.

Lemma range_all_spec P fuel : forall z k,
  range_all P fuel z = true -> (k < fuel)%nat -> P (z + Z.of_nat k) = true.
Proof.
  induction fuel as [ | fuel IH]; intros z k H Hk; [lia | ].
  simpl in H. apply andb_prop in H as [H0 H1].
  destruct k as [ | k].
  - now rewrite Z.add_0_r.
  - replace (z + Z.of_nat (S k)) with (z + 1 + Z.of_nat k) by lia.
    apply IH; [assumption | lia].
Qed.

(** The largest buffer a [ScriptProcessorNode] hands to its handler. *)
Definition MAX_BUFFER_SIZE : nat := Z.to_nat 16384.

Definition floor_div_one (z : Z) : bool :=
  match Math_floor (of_Z z / 1) with
  | Int z' => z' =? z
  | _ => false
  end.

Lemma floor_div_one_small (L : nat) :
  (L <= MAX_BUFFER_SIZE)%nat -> Math_floor (of_nat L / 1) = Int (Z.of_nat L).
Proof.
  intros HL.
  assert (H : range_all floor_div_one (S MAX_BUFFER_SIZE) 0 = true)
    by (vm_compute; reflexivity).
  apply range_all_spec with (k := L) in H; [ | lia].
  unfold floor_div_one in H. rewrite Z.add_0_l in H. unfold of_nat.
  destruct (Math_floor (of_Z (Z.of_nat L) / 1)); try discriminate.
  apply Z.eqb_eq in H. now subst.
Qed.

(** ** The resampler *)

Lemma SFcompare_antisym a b c :
  SFcompare a b = Some c -> SFcompare b a = Some (CompOpp c).
Proof.
  destruct a as [sa | sa | | sa ma ea], b as [sb | sb | | sb mb eb];
    simpl; try discriminate;
    try (destruct sa; intros [= <-]; reflexivity);
    try (destruct sb; intros [= <-]; reflexivity);
    try (intros [= <-]; reflexivity).
  - destruct sa, sb; intros [= <-]; reflexivity.
  - intros [= <-]. f_equal.
    rewrite (Z.compare_antisym ea eb).
    change (PosDef.Pos.compare_cont Eq mb ma) with (Pos.compare_cont (CompOpp Eq) mb ma).
    rewrite <- (Pos.compare_cont_antisym ma mb Eq).
    change (PosDef.Pos.compare_cont Eq ma mb) with (Pos.compare_cont Eq ma mb).
    destruct sa, sb, (ea ?= eb); simpl; try reflexivity.
    all: now rewrite CompOpp_involutive.
Qed.

Lemma leb_not_gt (x y : float) : (y <=? x)%float = true -> (x <? y)%float = false.
Proof.
  rewrite leb_spec, ltb_spec. unfold SFleb, SFltb.
  destruct (SFcompare (Prim2SF y) (Prim2SF x)) as [c | ] eqn:E; [ | discriminate].
  apply SFcompare_antisym in E. rewrite E.
  destruct c; simpl; congruence.
Qed.

Lemma decimate_length buffer ratio : forall remaining offsetResult offsetBuffer,
  length (decimate buffer ratio remaining offsetResult offsetBuffer) = remaining.
Proof.
  induction remaining as [ | remaining IH]; intros offsetResult offsetBuffer; simpl.
  - reflexivity.
  - destruct (window buffer offsetBuffer _) as [acc count]. simpl. now rewrite IH.
Qed.

Lemma floatTo16BitPCM_length (a : list float) :
  length (floatTo16BitPCM (Float32Array a)) = length a.
Proof. simpl. apply length_map. Qed.

(** The end of window [k], as the loop computes it. *)
Definition window_end (ratio : float) (k : nat) : integral :=
  Math_floor (of_nat (k + 1) * ratio)%float.

(** Position [j] lies before the end of one of the windows [from], ...,
    [from + n - 1]. *)
Definition in_windows (ratio : float) (from n j : nat) : Prop :=
  exists k, (from <= k < from + n)%nat /\ position_lt j (window_end ratio k) = true.

(** Two buffers that differ only in samples that lie in no window. *)
Definition agree_on_windows (ratio : float) (n : nat) (b b' : list float) : Prop :=
  length b' = length b /\ forall j, in_windows ratio 0 n j -> b' !! j = b !! j.

Lemma window_loop_agree next : forall rest rest' i acc count,
  length rest' = length rest ->
  (forall j, position_lt (i + j) next = true -> rest' !! j = rest !! j) ->
  window_loop rest' i next acc count = window_loop rest i next acc count.
Proof.
  induction rest as [ | x rest IH]; intros rest' i acc count Hlen H.
  - destruct rest'; [reflexivity | discriminate].
  - destruct rest' as [ | x' rest']; [discriminate | ]. simpl.
    destruct (position_lt i next) eqn:Hi; [ | reflexivity].
    assert (Hx : x' = x).
    { specialize (H 0%nat). rewrite Nat.add_0_r in H. specialize (H Hi).
      now injection H. }
    subst x'. apply IH.
    + now injection Hlen.
    + intros j Hj. apply (H (S j)). now rewrite Nat.add_succ_r.
Qed.

Lemma window_agree b b' offsetBuffer next :
  length b' = length b ->
  (forall j, position_lt j next = true -> b' !! j = b !! j) ->
  window b' offsetBuffer next = window b offsetBuffer next.
Proof.
  intros Hlen H. unfold window.
  destruct (as_position offsetBuffer) as [i | ]; [ | reflexivity].
  apply window_loop_agree.
  - now rewrite !length_drop, Hlen.
  - intros j Hj. rewrite !lookup_drop. now apply H.
Qed.

Lemma decimate_agree ratio b b' : forall remaining offsetResult offsetBuffer,
  length b' = length b ->
  (forall j, in_windows ratio offsetResult remaining j -> b' !! j = b !! j) ->
  decimate b' ratio remaining offsetResult offsetBuffer
  = decimate b ratio remaining offsetResult offsetBuffer.
Proof.
  induction remaining as [ | remaining IH]; intros offsetResult offsetBuffer Hlen H.
  - reflexivity.
  - simpl.
    rewrite (window_agree b b' offsetBuffer _ Hlen).
    + destruct (window b offsetBuffer _) as [acc count]. f_equal.
      apply IH; [assumption | ].
      intros j (k & Hk & Hj). apply H. exists k. split; [lia | assumption].
    + intros j Hj. apply H. exists offsetResult. split; [lia | exact Hj].
Qed.

(** C4. Downsampling a block of [L] samples from [inRate] to
    [outRate <= inRate] returns exactly [Math.floor(L / (inRate / outRate))]
    samples (whenever that number is a valid array length), and the samples
    that lie beyond the last of these windows are dropped: they have no
    influence on the result. *)
Theorem downsample_length (buffer : list float) (inRate outRate : float) (n : nat) :
  (length buffer <= MAX_BUFFER_SIZE)%nat ->
  (outRate <=? inRate)%float = true ->
  Math_floor (of_nat (length buffer) / (inRate / outRate)) = Int (Z.of_nat n) ->
  Z.of_nat n <= 9007199254740991 ->
  exists out,
    downsampleFloat32 buffer inRate outRate = Some out /\
    length out = n /\
    ((outRate =? inRate)%float = false ->
     forall buffer', agree_on_windows (inRate / outRate) n buffer buffer' ->
                     downsampleFloat32 buffer' inRate outRate = Some out).
Proof.
  intros HL Hle Hn Hmax. unfold downsampleFloat32.
  destruct (outRate =? inRate)%float eqn:Heq.
  - eexists. split; [reflexivity | ]. split; [ | discriminate].
    rewrite floatTo16BitPCM_length.
    destruct (div_same inRate outRate Heq) as [E | E]; rewrite E in Hn.
    + rewrite floor_div_one_small in Hn by assumption.
      injection Hn as Hn. lia.
    + rewrite div_nan in Hn. discriminate.
  - rewrite (leb_not_gt _ _ Hle). rewrite Hn.
    assert (Hidx : ToIndex (Int (Z.of_nat n)) = Some n).
    { unfold ToIndex.
      destruct (Z.ltb_spec (Z.of_nat n) 0); [lia | ].
      destruct (Z.ltb_spec 9007199254740991 (Z.of_nat n)); [lia | ].
      simpl. now rewrite Nat2Z.id. }
    rewrite Hidx. eexists. split; [reflexivity | ].
    split; [apply decimate_length | ].
    intros _ buffer' [Hlen Hagree]. rewrite Hlen, Hn, Hidx. f_equal.
    now apply decimate_agree.
Qed.

Lemma downsample_length_witness :
  let buffer := [0.5; 0.25; 0.75; (-1); (-0.5); 0; 1]%float in
  (length buffer <= MAX_BUFFER_SIZE)%nat /\
  (16000 <=? 48000)%float = true /\
  Math_floor (of_nat (length buffer) / (48000 / 16000)) = Int (Z.of_nat 2) /\
  Z.of_nat 2 <= 9007199254740991 /\
  exists out,
    downsampleFloat32 buffer 48000 16000 = Some out /\
    length out = 2%nat /\
    ((16000 =? 48000)%float = false ->
     forall buffer', agree_on_windows (48000 / 16000) 2 buffer buffer' ->
                     downsampleFloat32 buffer' 48000 16000 = Some out).
Proof.
  intros buffer.
  assert (H1 : (length buffer <= MAX_BUFFER_SIZE)%nat) by (vm_compute; lia).
  assert (H2 : (16000 <=? 48000)%float = true) by reflexivity.
  assert (H3 : Math_floor (of_nat (length buffer) / (48000 / 16000)) = Int (Z.of_nat 2))
    by reflexivity.
  assert (H4 : Z.of_nat 2 <= 9007199254740991) by (simpl; lia).
  repeat (split; [assumption | ]).
  exact (downsample_length buffer 48000 16000 2 H1 H2 H3 H4).
Defined.

(** The seventh sample of a block resampled from 48 kHz to 16 kHz belongs
    to no window: whatever it is, the result is the same. *)
Example last_sample_dropped (x : float) :
  downsampleFloat32 [0.5; 0.25; 0.75; (-1); (-0.5); 0; x]%float 48000 16000
  = Some [16383; -16383].
Proof. reflexivity. Qed.

(** ** The batch client: voice activity detection *)

Module BatchFacts.
Import Batch.

(** What the handler computes its decision from: the resampled block, when
    the handler gets that far. *)
Definition downsampled (st : State) (input : list float) : option (list Z) :=
  match audioCtx st with
  | Some sampleRate => downsampleFloat32 input sampleRate RECORD_SAMPLE_RATE
  | None => None
  end.

(** A block is a voice candidate when its RMS exceeds 3.5 times the noise
    floor, updated with this block, and its zero-crossing rate exceeds
    0.02; it is quiet when it is processed and is no candidate. *)
Inductive BlockKind := Voice | Quiet | Rejected.

Definition classify (st : State) (input : list float) : BlockKind :=
  match downsampled st input with
  | None => Rejected
  | Some d =>
      let rms := rmsOf d in
      if voiceCandidate (updatedNoiseFloor (vad st) rms) rms (zcrOf d)
      then Voice else Quiet
  end.

(** Every block of the sequence is of kind [k] when it arrives. *)
Fixpoint along (k : BlockKind) (st : State) (blocks : list (list float)) : Prop :=
  match blocks with
  | [] => True
  | input :: rest => classify st input = k /\ along k (onaudioprocess input st) rest
  end.

Definition listening : Effect := Toast (str "Listening" ++ [ellipsis]) info 1200.
Definition stopping : Effect := LogInfo (str "Stopping due to silence").

Definition isToast (msg : text) (e : Effect) : bool :=
  match e with
  | Toast m _ _ => text_eqb m msg
  | _ => false
  end.

Definition isLog (msg : text) (e : Effect) : bool :=
  match e with
  | LogInfo m => text_eqb m msg
  | _ => false
  end.

Definition isFetch (e : Effect) : bool :=
  match e with
  | Fetch _ _ => true
  | _ => false
  end.

Definition count (p : Effect -> bool) (l : list Effect) : nat :=
  length (List.filter p l).

(** The number of onset notifications and of silence time-outs so far. *)
Definition onsets (st : State) : nat :=
  count (isToast (str "Listening" ++ [ellipsis])) (effects st).

Definition autoStops (st : State) : nat :=
  count (isLog (str "Stopping due to silence")) (effects st).

Definition voiceConfirmed (st : State) : bool := hasDetectedVoice (vad st).

#[local] Arguments str : simpl never.
#[local] Arguments pushHistory : simpl never.
#[local] Arguments rmsOf : simpl never.
#[local] Arguments zcrOf : simpl never.
#[local] Arguments floatTo16BitPCM : simpl never.
#[local] Arguments Math_min : simpl never.
#[local] Arguments Z.ltb : simpl never.
#[local] Arguments Z.max : simpl never.
#[local] Arguments Z.add : simpl never.
#[local] Arguments count : simpl never.

Ltac split_state :=
  repeat (cbn;
          match goal with
          | |- context [match micBtn ?s with _ => _ end] => destruct (micBtn s) eqn:?
          | |- context [match maxRecordingTimer ?s with _ => _ end] =>
              destruct (maxRecordingTimer s) eqn:?
          end);
  cbn.

Ltac unfold_handlers :=
  unfold stopRecording, stopRecording_finally, resetBtn, setBtnProcessing,
    setBtnRecording, setBtn, showToast, cleanupRecording, emit.

Lemma count_app p l l' : count p (l ++ l') = (count p l + count p l')%nat.
Proof. unfold count. now rewrite List.filter_app, length_app. Qed.

Ltac count_effects :=
  rewrite ?count_app;
  repeat match goal with
         | |- context [count ?p (?x :: ?l)] =>
             let v := eval vm_compute in (count p (x :: l)) in
             change (count p (x :: l)) with v
         | |- context [count ?p []] => change (count p []) with 0%nat
         end.

(** What [stopRecording] leaves alone, and what it adds to the effects. *)
Lemma stopRecording_frame st :
  let st' := stopRecording st in
  vad st' = vad st /\ currentEl st' = currentEl st /\
  isRecording st' = false /\
  (isRecording st = true -> audioCtx st' = None) /\
  onsets st' = onsets st /\ autoStops st' = autoStops st.
Proof.
  unfold_handlers. unfold onsets, autoStops.
  destruct (isRecording st) eqn:E; cbn; [ | rewrite E; intuition congruence].
  destruct (length _ =? 0)%nat; split_state; count_effects; intuition lia.
Qed.

Lemma onaudioprocess_rejected st input :
  classify st input = Rejected -> onaudioprocess input st = st.
Proof.
  unfold classify, downsampled, onaudioprocess.
  destruct (audioCtx st) as [sampleRate | ]; [ | reflexivity].
  destruct (downsampleFloat32 input sampleRate RECORD_SAMPLE_RATE) as [d | ]; [ | reflexivity].
  destruct (voiceCandidate _ _ _); discriminate.
Qed.

Lemma onaudioprocess_voice st input :
  classify st input = Voice ->
  let st' := onaudioprocess input st in
  let frames := voiceDetectedFrames (vad st) + 1 in
  let onset := negb (voiceConfirmed st) && (5 <? frames) in
  voiceDetectedFrames (vad st') = frames /\
  silenceFrames (vad st') = 0 /\
  voiceConfirmed st' = voiceConfirmed st || (5 <? frames) /\
  effects st' = effects st ++ (if onset then [listening] else []) /\
  isRecording st' = isRecording st /\
  audioCtx st' = audioCtx st.
Proof.
  unfold classify, downsampled, onaudioprocess, voiceConfirmed.
  destruct (audioCtx st) as [sampleRate | ] eqn:Ectx; [ | discriminate].
  destruct (downsampleFloat32 input sampleRate RECORD_SAMPLE_RATE) as [d | ]; [ | discriminate].
  destruct (voiceCandidate _ _ _); [intros _ | discriminate].
  cbn zeta. unfold showToast, emit. cbn.
  destruct (hasDetectedVoice (vad st)) eqn:Ehas;
    destruct (5 <? voiceDetectedFrames (vad st) + 1) eqn:E5; split_state;
    rewrite ?Ehas, ?app_nil_r; auto 10.
Qed.

Lemma onaudioprocess_quiet st input :
  classify st input = Quiet ->
  let st' := onaudioprocess input st in
  let silence := if voiceConfirmed st then silenceFrames (vad st) + 1
                 else silenceFrames (vad st) in
  voiceDetectedFrames (vad st') = Z.max 0 (voiceDetectedFrames (vad st) - 1) /\
  silenceFrames (vad st') = silence /\
  voiceConfirmed st' = voiceConfirmed st /\
  onsets st' = onsets st /\
  if voiceConfirmed st && (45 <? silence)
  then autoStops st' = S (autoStops st) /\ isRecording st' = false /\
       (isRecording st = true -> audioCtx st' = None)
  else autoStops st' = autoStops st /\ isRecording st' = isRecording st /\
       audioCtx st' = audioCtx st.
Proof.
  unfold classify, downsampled, onaudioprocess, voiceConfirmed.
  destruct (audioCtx st) as [sampleRate | ] eqn:Ectx; [ | discriminate].
  destruct (downsampleFloat32 input sampleRate RECORD_SAMPLE_RATE) as [d | ]; [ | discriminate].
  destruct (voiceCandidate _ _ _); [discriminate | intros _].
  cbn. destruct (hasDetectedVoice (vad st)) eqn:Ehas; cbn; rewrite ?Ehas; cbn.
  - destruct (45 <? silenceFrames (vad st) + 1) eqn:E45; cbn.
    + match goal with |- context [stopRecording ?s] =>
        pose proof (stopRecording_frame s) as (Hv & _ & Hr & Hc & Ho & Ha);
        generalize dependent (stopRecording s) end.
      intros st' Hv Hr Hc Ho Ha.
      rewrite Hv, Hr, Ho, Ha. unfold onsets, autoStops, emit in *. split_state;
        rewrite ?Ehas; count_effects; repeat split; auto; lia.
    + split_state; rewrite ?Ehas; auto 10.
  - split_state; rewrite ?Ehas; auto 10.
Qed.
Lemma feed_app st l1 l2 : feed st (l1 ++ l2) = feed (feed st l1) l2.
Proof. unfold feed. apply fold_left_app. Qed.

Lemma along_app k : forall l1 l2 st,
  along k st (l1 ++ l2) <-> along k st l1 /\ along k (feed st l1) l2.
Proof.
  induction l1 as [ | input l1 IH]; intros l2 st; simpl.
  - tauto.
  - rewrite IH. tauto.
Qed.

Lemma along_take k n blocks st : along k st blocks -> along k st (take n blocks).
Proof.
  intros H. rewrite <- (take_drop n blocks) in H. now apply along_app in H.
Qed.

(** A run of voice-candidate blocks, from a state in which the frame count
    has not passed the onset threshold unnoticed. *)
Lemma voice_run : forall blocks st,
  (voiceConfirmed st = false -> voiceDetectedFrames (vad st) <= 5) ->
  along Voice st blocks ->
  let st' := feed st blocks in
  let frames := voiceDetectedFrames (vad st) + Z.of_nat (length blocks) in
  voiceDetectedFrames (vad st') = frames /\
  voiceConfirmed st' = voiceConfirmed st || (5 <? frames) /\
  onsets st' = (onsets st + if negb (voiceConfirmed st) && (5 <? frames)%Z then 1 else 0)%nat /\
  isRecording st' = isRecording st /\
  audioCtx st' = audioCtx st.
Proof.
  induction blocks as [ | input blocks IH]; intros st J H.
  - cbn. rewrite Z.add_0_r.
    destruct (voiceConfirmed st) eqn:E; cbn.
    + repeat split; lia.
    + destruct (Z.ltb_spec 5 (voiceDetectedFrames (vad st))); [specialize (J eq_refl); lia | ].
      repeat split; lia.
  - destruct H as [Hk H].
    pose proof (onaudioprocess_voice st input Hk) as (Hf & _ & Hc & He & Hr & Ha).
    change (feed st (input :: blocks)) with (feed (onaudioprocess input st) blocks).
    set (st1 := onaudioprocess input st) in *.
    assert (J1 : voiceConfirmed st1 = false -> voiceDetectedFrames (vad st1) <= 5).
    { rewrite Hc, Hf. intros E. apply orb_false_elim in E as [_ E].
      apply Z.ltb_ge in E. exact E. }
    specialize (IH st1 J1 H). cbv zeta in IH.
    destruct IH as (IHf & IHc & IHo & IHr & IHa).
    assert (Ho : onsets st1 = (onsets st + if negb (voiceConfirmed st)
                                              && (5 <? voiceDetectedFrames (vad st) + 1)%Z
                                           then 1 else 0)%nat).
    { unfold onsets. rewrite He.
      destruct (negb (voiceConfirmed st) && (5 <? voiceDetectedFrames (vad st) + 1));
        unfold listening; count_effects; lia. }
    cbv zeta. rewrite IHf, IHc, IHo, IHr, IHa, Hf, Hc, Ho, Hr, Ha.
    replace (voiceDetectedFrames (vad st) + Z.of_nat (length (input :: blocks)))
      with (voiceDetectedFrames (vad st) + 1 + Z.of_nat (length blocks))
      by (cbn [length]; lia).
    destruct (voiceConfirmed st) eqn:E; cbn [negb andb orb].
    + repeat split; lia.
    + destruct (Z.ltb_spec 5 (voiceDetectedFrames (vad st) + 1));
        destruct (Z.ltb_spec 5 (voiceDetectedFrames (vad st) + 1 + Z.of_nat (length blocks)));
        cbn [negb andb orb]; repeat split; lia.
Qed.

(** A run of quiet blocks after the onset, as long as the silence count
    stays within the limit. *)
Lemma quiet_run : forall blocks st,
  voiceConfirmed st = true ->
  along Quiet st blocks ->
  silenceFrames (vad st) + Z.of_nat (length blocks) <= 45 ->
  let st' := feed st blocks in
  silenceFrames (vad st') = silenceFrames (vad st) + Z.of_nat (length blocks) /\
  voiceConfirmed st' = true /\
  autoStops st' = autoStops st /\
  isRecording st' = isRecording st /\
  audioCtx st' = audioCtx st.
Proof.
  induction blocks as [ | input blocks IH]; intros st Hc H Hs.
  - cbn. repeat split; auto; lia.
  - destruct H as [Hk H].
    pose proof (onaudioprocess_quiet st input Hk) as (_ & Hs1 & Hc1 & _ & Hstop).
    cbv zeta in Hs1, Hstop. rewrite Hc in Hs1, Hstop. cbn [andb] in Hstop.
    cbn [length] in Hs.
    destruct (Z.ltb_spec 45 (silenceFrames (vad st) + 1)); [lia | ].
    destruct Hstop as (Ha & Hr & Hx).
    change (feed st (input :: blocks)) with (feed (onaudioprocess input st) blocks).
    set (st1 := onaudioprocess input st) in *.
    assert (Hc1' : voiceConfirmed st1 = true) by congruence.
    specialize (IH st1 Hc1' H). rewrite Hs1 in IH.
    destruct IH as (IHs & IHc & IHa & IHr & IHx); [lia | ].
    cbv zeta. rewrite IHs, IHc, IHa, IHr, IHx, Ha, Hr, Hx.
    cbn [length]. repeat split; auto; lia.
Qed.
Definition BlockKind_eqb (a b : BlockKind) : bool :=
  match a, b with
  | Voice, Voice | Quiet, Quiet | Rejected, Rejected => true
  | _, _ => false
  end.

Fixpoint alongb (k : BlockKind) (st : State) (blocks : list (list float)) : bool :=
  match blocks with
  | [] => true
  | input :: rest =>
      BlockKind_eqb (classify st input) k && alongb k (onaudioprocess input st) rest
  end.

Lemma alongb_sound k : forall blocks st, alongb k st blocks = true -> along k st blocks.
Proof.
  induction blocks as [ | input blocks IH]; intros st H; simpl in *; [exact I | ].
  apply andb_prop in H as [H1 H2]. split; [ | now apply IH].
  destruct (classify st input), k; (reflexivity || discriminate).
Qed.

(** The state in which [startRecording] leaves the detector. *)
Lemma startRecording_granted_vad now sampleRate st :
  let st' := startRecording_granted now sampleRate st in
  voiceDetectedFrames (vad st') = 0 /\ silenceFrames (vad st') = 0 /\
  voiceConfirmed st' = false /\ vadHistory (vad st') = [] /\
  isRecording st' = true /\ audioCtx st' = Some sampleRate.
Proof.
  unfold startRecording_granted, setTimeout, voiceConfirmed. unfold_handlers.
  split_state; auto 10.
Qed.

Ltac eval_threshold :=
  repeat match goal with
         | |- context [5 <? ?e] =>
             let v := eval vm_compute in (5 <? e) in change (5 <? e) with v
         end;
  cbn [negb andb orb].

(** C2. From a fresh detector, four voice-candidate blocks followed by a
    quiet one never set [hasDetectedVoice]; six voice-candidate blocks in a
    row set it, on the sixth block and not before, with one onset
    notification, and a seventh voice-candidate block adds no second one. *)
Theorem vad_onset_hysteresis (now : Z) (sampleRate : float) (st0 : State)
        (four six : list (list float)) (quiet seventh : list float) :
  let fresh := startRecording_granted now sampleRate st0 in
  length four = 4%nat -> along Voice fresh four ->
  classify (feed fresh four) quiet = Quiet ->
  length six = 6%nat -> along Voice fresh six ->
  classify (feed fresh six) seventh = Voice ->
  (forall k, voiceConfirmed (feed fresh (take k (four ++ [quiet]))) = false) /\
  (forall k, (k < 6)%nat -> voiceConfirmed (feed fresh (take k six)) = false) /\
  voiceConfirmed (feed fresh six) = true /\
  onsets (feed fresh six) = S (onsets fresh) /\
  voiceConfirmed (feed fresh (six ++ [seventh])) = true /\
  onsets (feed fresh (six ++ [seventh])) = S (onsets fresh).
Proof.
  intros fresh L4 V4 Q L6 V6 V7.
  destruct (startRecording_granted_vad now sampleRate st0) as (F0 & _ & C0 & _).
  fold fresh in F0, C0.
  assert (J : voiceConfirmed fresh = false -> voiceDetectedFrames (vad fresh) <= 5)
    by (intros _; rewrite F0; lia).
  assert (prefix : forall blocks k, along Voice fresh blocks -> (k <= 5)%nat ->
                                    voiceConfirmed (feed fresh (take k blocks)) = false).
  { intros blocks k V Hk.
    pose proof (voice_run (take k blocks) fresh J (along_take _ k _ _ V)) as (_ & Hc & _).
    cbv zeta in Hc. rewrite Hc, C0, F0. cbn [orb].
    apply Z.ltb_ge. rewrite length_take. lia. }
  split; [ | split; [ | split; [ | split ] ] ].
  - intros k. destruct (Nat.le_gt_cases k 4) as [Hk | Hk].
    + rewrite take_app_le by lia. apply prefix; [assumption | lia].
    + rewrite take_ge by (rewrite length_app; simpl; lia).
      rewrite feed_app. cbn [feed fold_left].
      pose proof (onaudioprocess_quiet _ _ Q) as (_ & _ & Hc & _).
      cbv zeta in Hc. rewrite Hc.
      rewrite <- (take_ge four 4) by lia. apply prefix; [assumption | lia].
  - intros k Hk. apply prefix; [assumption | lia].
  - pose proof (voice_run six fresh J V6) as (_ & Hc & _).
    cbv zeta in Hc. rewrite Hc, C0, F0, L6. eval_threshold. reflexivity.
  - pose proof (voice_run six fresh J V6) as (_ & _ & Ho & _).
    cbv zeta in Ho. rewrite Ho, C0, F0, L6. eval_threshold. lia.
  - assert (V : along Voice fresh (six ++ [seventh])).
    { apply along_app. split; [assumption | ]. cbn [along]. split; [exact V7 | exact I]. }
    pose proof (voice_run _ fresh J V) as (_ & Hc & Ho & _).
    cbv zeta in Hc, Ho. rewrite Hc, Ho, C0, F0, length_app, L6. cbn [length].
    eval_threshold. split; [reflexivity | lia].
Qed.

Definition tone (a : float) : list float := [a; (- a)%float; a; (- a)%float].
Definition silent : list float := [0; 0; 0; 0]%float.
Definition rising : list (list float) :=
  [tone 0.01; tone 0.02; tone 0.04; tone 0.08; tone 0.16; tone 0.32].

Lemma vad_onset_hysteresis_witness :
  let fresh := startRecording_granted 0 16000 (initial None) in
  length (take 4 rising) = 4%nat /\ along Voice fresh (take 4 rising) /\
  classify (feed fresh (take 4 rising)) silent = Quiet /\
  length rising = 6%nat /\ along Voice fresh rising /\
  classify (feed fresh rising) (tone 0.64) = Voice /\
  (forall k, voiceConfirmed (feed fresh (take k (take 4 rising ++ [silent]))) = false) /\
  (forall k, (k < 6)%nat -> voiceConfirmed (feed fresh (take k rising)) = false) /\
  voiceConfirmed (feed fresh rising) = true /\
  onsets (feed fresh rising) = S (onsets fresh) /\
  voiceConfirmed (feed fresh (rising ++ [tone 0.64])) = true /\
  onsets (feed fresh (rising ++ [tone 0.64])) = S (onsets fresh).
Proof.
  intros fresh.
  assert (H1 : length (take 4 rising) = 4%nat) by reflexivity.
  assert (H2 : along Voice fresh (take 4 rising))
    by (apply alongb_sound; vm_compute; reflexivity).
  assert (H3 : classify (feed fresh (take 4 rising)) silent = Quiet)
    by (vm_compute; reflexivity).
  assert (H4 : length rising = 6%nat) by reflexivity.
  assert (H5 : along Voice fresh rising)
    by (apply alongb_sound; vm_compute; reflexivity).
  assert (H6 : classify (feed fresh rising) (tone 0.64) = Voice)
    by (vm_compute; reflexivity).
  repeat (split; [assumption | ]).
  exact (vad_onset_hysteresis 0 16000 (initial None) (take 4 rising) rising silent
           (tone 0.64) H1 H2 H3 H4 H5 H6).
Defined.
Lemma onaudioprocess_dead st input : audioCtx st = None -> onaudioprocess input st = st.
Proof. intros H. unfold onaudioprocess. now rewrite H. Qed.

Lemma feed_dead blocks : forall st, audioCtx st = None -> feed st blocks = st.
Proof.
  induction blocks as [ | input blocks IH]; intros st H; [reflexivity | ].
  change (feed st (input :: blocks)) with (feed (onaudioprocess input st) blocks).
  rewrite onaudioprocess_dead by assumption. now apply IH.
Qed.

Lemma classify_live st input : classify st input <> Rejected -> audioCtx st <> None.
Proof.
  unfold classify, downsampled. destruct (audioCtx st); congruence.
Qed.

(** One block either leaves the count of silence time-outs as it is, or
    adds one and ends the capture. *)
Lemma onaudioprocess_stops st input :
  (audioCtx st <> None -> isRecording st = true) ->
  let st' := onaudioprocess input st in
  (audioCtx st' <> None -> isRecording st' = true) /\
  (autoStops st' = autoStops st \/
   audioCtx st' = None /\ autoStops st' = S (autoStops st)).
Proof.
  intros K. cbv zeta.
  destruct (classify st input) eqn:Hk.
  - pose proof (onaudioprocess_voice st input Hk) as (_ & _ & _ & He & Hr & Ha).
    cbv zeta in He. rewrite Hr, Ha. split; [assumption | left].
    unfold autoStops. rewrite He.
    destruct (negb (voiceConfirmed st) && _); unfold listening; count_effects; lia.
  - pose proof (onaudioprocess_quiet st input Hk) as (_ & _ & _ & _ & Hstop).
    cbv zeta in Hstop.
    destruct (voiceConfirmed st && _).
    + destruct Hstop as (Ha & Hr & Hx).
      assert (Hnone : audioCtx (onaudioprocess input st) = None).
      { apply Hx, K, classify_live with input. congruence. }
      split; [congruence | right; auto].
    + destruct Hstop as (Ha & Hr & Hx). rewrite Hr, Hx. split; [assumption | left; assumption].
  - rewrite (onaudioprocess_rejected st input Hk). split; [assumption | left; reflexivity].
Qed.

Lemma feed_stops blocks : forall st,
  (audioCtx st <> None -> isRecording st = true) ->
  (autoStops (feed st blocks) <= S (autoStops st))%nat.
Proof.
  induction blocks as [ | input blocks IH]; intros st K; [cbn; lia | ].
  change (feed st (input :: blocks)) with (feed (onaudioprocess input st) blocks).
  destruct (onaudioprocess_stops st input K) as (K1 & [Ha | [Hx Ha]]).
  - rewrite <- Ha. now apply IH.
  - rewrite feed_dead by assumption. lia.
Qed.

(** C3. Once voice is confirmed, a run of quiet blocks that starts with the
    silence count at zero ends the recording on its 46th block, not on any
    of the first 45; the silence time-out is signalled once, whatever blocks
    follow, and never more than once whatever blocks are fed. *)
Theorem vad_auto_stop (st : State) (quiet : list (list float)) :
  isRecording st = true ->
  voiceConfirmed st = true ->
  silenceFrames (vad st) = 0 ->
  length quiet = 46%nat ->
  along Quiet st quiet ->
  (forall k, (k <= 45)%nat ->
             isRecording (feed st (take k quiet)) = true /\
             autoStops (feed st (take k quiet)) = autoStops st) /\
  isRecording (feed st quiet) = false /\
  autoStops (feed st quiet) = S (autoStops st) /\
  (forall more, autoStops (feed st (quiet ++ more)) = S (autoStops st)) /\
  (forall blocks, (autoStops (feed st blocks) <= S (autoStops st))%nat).
Proof.
  intros Hr Hc Hs L Q.
  assert (prefix : forall k, (k <= 45)%nat ->
            let st' := feed st (take k quiet) in
            silenceFrames (vad st') = Z.of_nat k /\ voiceConfirmed st' = true /\
            autoStops st' = autoStops st /\ isRecording st' = true /\
            audioCtx st' = audioCtx st).
  { intros k Hk.
    pose proof (quiet_run (take k quiet) st Hc (along_take _ k _ _ Q)) as H.
    rewrite length_take, Hs in H. cbv zeta in H.
    destruct H as (H1 & H2 & H3 & H4 & H5); [lia | ].
    cbv zeta. rewrite H1, H4. repeat split; auto. lia. }
  destruct (prefix 45%nat (le_n _)) as (P1 & P2 & P3 & P4 & P5). cbv zeta in *.
  assert (Hsplit : quiet = take 45 quiet ++ drop 45 quiet) by (symmetry; apply take_drop).
  destruct (drop 45 quiet) as [ | last rest] eqn:Hd.
  { apply (f_equal length) in Hd. rewrite length_drop, L in Hd. discriminate. }
  assert (rest = []) as ->.
  { apply (f_equal length) in Hd. rewrite length_drop, L in Hd.
    destruct rest; [reflexivity | discriminate]. }
  assert (Q46 : classify (feed st (take 45 quiet)) last = Quiet).
  { rewrite Hsplit in Q. apply along_app in Q as [_ [Q _]]. exact Q. }
  pose proof (onaudioprocess_quiet _ _ Q46) as (_ & _ & _ & _ & Hstop).
  cbv zeta in Hstop. rewrite P2, P1 in Hstop.
  change (true && (45 <? Z.of_nat 45 + 1)) with true in Hstop.
  destruct Hstop as (Ha & Hr' & Hx). specialize (Hx P4).
  assert (Hfeed : feed st quiet = onaudioprocess last (feed st (take 45 quiet))).
  { rewrite Hsplit at 1. now rewrite feed_app. }
  split; [ | split; [ | split; [ | split ] ] ].
  - intros k Hk. destruct (prefix k Hk) as (_ & _ & H3 & H4 & _). auto.
  - now rewrite Hfeed.
  - rewrite Hfeed, Ha. now rewrite P3.
  - intros more. rewrite feed_app, Hfeed, feed_dead by assumption.
    rewrite Ha. now rewrite P3.
  - intros blocks. apply feed_stops. intros _. exact Hr.
Qed.

Definition confirmed : State :=
  feed (startRecording_granted 0 16000 (initial None)) rising.

Lemma vad_auto_stop_witness :
  let quiet := replicate 46 silent in
  isRecording confirmed = true /\
  voiceConfirmed confirmed = true /\
  silenceFrames (vad confirmed) = 0 /\
  length quiet = 46%nat /\
  along Quiet confirmed quiet /\
  (forall k, (k <= 45)%nat ->
             isRecording (feed confirmed (take k quiet)) = true /\
             autoStops (feed confirmed (take k quiet)) = autoStops confirmed) /\
  isRecording (feed confirmed quiet) = false /\
  autoStops (feed confirmed quiet) = S (autoStops confirmed) /\
  (forall more, autoStops (feed confirmed (quiet ++ more)) = S (autoStops confirmed)) /\
  (forall blocks, (autoStops (feed confirmed blocks) <= S (autoStops confirmed))%nat).
Proof.
  intros quiet.
  assert (H1 : isRecording confirmed = true) by (vm_compute; reflexivity).
  assert (H2 : voiceConfirmed confirmed = true) by (vm_compute; reflexivity).
  assert (H3 : silenceFrames (vad confirmed) = 0) by (vm_compute; reflexivity).
  assert (H4 : length quiet = 46%nat) by reflexivity.
  assert (H5 : along Quiet confirmed quiet)
    by (apply alongb_sound; vm_compute; reflexivity).
  repeat (split; [assumption | ]).
  exact (vad_auto_stop confirmed quiet H1 H2 H3 H4 H5).
Defined.
(** The history window holds at most this many RMS values. *)
Definition HISTORY_CAPACITY : nat := 30.

Lemma pushHistory_spec (history : list float) (rms : float) :
  (length history <= HISTORY_CAPACITY)%nat ->
  pushHistory history rms
  = (if (length history =? HISTORY_CAPACITY)%nat then tail history else history) ++ [rms]
  /\ (length (pushHistory history rms) <= HISTORY_CAPACITY)%nat.
Proof.
  unfold pushHistory, HISTORY_CAPACITY. intros H. rewrite length_app. cbn [length].
  destruct (Nat.eqb_spec (length history) 30) as [E | E].
  - destruct (Nat.ltb_spec 30 (length history + 1)); [ | lia].
    destruct history as [ | x history]; [discriminate | ].
    cbn [tail app length] in *. rewrite length_app. cbn [length]. split; [reflexivity | lia].
  - destruct (Nat.ltb_spec 30 (length history + 1)); [lia | ].
    rewrite length_app. cbn [length]. split; [reflexivity | lia].
Qed.

Lemma stopRecording_vad st : vad (stopRecording st) = vad st.
Proof. apply stopRecording_frame. Qed.

Lemma onaudioprocess_history st input :
  vadHistory (vad (onaudioprocess input st))
  = match downsampled st input with
    | Some d => pushHistory (vadHistory (vad st)) (rmsOf d)
    | None => vadHistory (vad st)
    end.
Proof.
  unfold downsampled, onaudioprocess.
  destruct (audioCtx st) as [sampleRate | ]; [ | reflexivity].
  destruct (downsampleFloat32 input sampleRate RECORD_SAMPLE_RATE) as [d | ]; [ | reflexivity].
  cbn zeta.
  destruct (voiceCandidate _ _ _); cbn;
    destruct (hasDetectedVoice (vad st)) eqn:Ehas; cbn;
    repeat match goal with
           | |- context [if ?b then _ else _] => destruct b eqn:?
           end;
    rewrite ?stopRecording_vad; split_state; reflexivity.
Qed.

Lemma stopRecording_response_vad r st : vad (stopRecording_response r st) = vad st.
Proof.
  unfold stopRecording_response, stopRecording_catch. unfold_handlers.
  destruct (inflight st); [reflexivity | ].
  destruct r as [message | status | [[ | c e] | ] t]; cbn;
    try destruct (currentEl st); try destruct (trim _); split_state; reflexivity.
Qed.

Lemma step_history now ev st :
  (length (vadHistory (vad st)) <= HISTORY_CAPACITY)%nat ->
  (length (vadHistory (vad (step now ev st))) <= HISTORY_CAPACITY)%nat.
Proof.
  intros H. destruct ev as [ | sampleRate | | input | id | | r]; cbn [step].
  - unfold micClick, startRecording.
    destruct (currentEl st); [ | assumption].
    destruct (isRecording st); [ | assumption].
    destruct (stopRecording_frame st) as (-> & _). assumption.
  - destruct (pendingStarts st); [assumption | ].
    destruct (startRecording_granted_vad now sampleRate (set_pendingStarts n st))
      as (_ & _ & _ & -> & _).
    cbn. unfold HISTORY_CAPACITY. lia.
  - destruct (pendingStarts st); [assumption | ].
    unfold startRecording_failed. unfold_handlers. split_state; assumption.
  - rewrite onaudioprocess_history.
    destruct (downsampled st input); [ | assumption].
    now apply pushHistory_spec.
  - destruct (timers st !! id); [ | assumption].
    unfold maxRecordingTimeout. cbn.
    destruct (isRecording st); [ | assumption].
    match goal with |- context [stopRecording ?s] =>
      destruct (stopRecording_frame s) as (-> & _) end. assumption.
  - unfold stopRecording_upload. unfold_handlers.
    destruct (suspended st); split_state; assumption.
  - now rewrite stopRecording_response_vad.
Qed.

(** C8. At every task boundary of a session the history window holds at
    most 30 RMS values; a processed block appends its RMS, and evicts the
    oldest entry when the window is full. *)
Theorem vad_history_bounded (el : option Element) (trace : list (Z * Event))
        (input : list float) :
  let st := run (initial el) trace in
  let history := vadHistory (vad st) in
  (length history <= HISTORY_CAPACITY)%nat /\
  (length (vadHistory (vad (onaudioprocess input st))) <= HISTORY_CAPACITY)%nat /\
  forall d, downsampled st input = Some d ->
    vadHistory (vad (onaudioprocess input st))
    = (if (length history =? HISTORY_CAPACITY)%nat then tail history else history)
        ++ [rmsOf d].
Proof.
  cbv zeta.
  assert (Inv : forall trace st,
             (length (vadHistory (vad st)) <= HISTORY_CAPACITY)%nat ->
             (length (vadHistory (vad (run st trace))) <= HISTORY_CAPACITY)%nat).
  { clear. induction trace as [ | [now ev] trace IH]; intros st H; [exact H | ].
    apply IH. now apply step_history. }
  assert (H : (length (vadHistory (vad (run (initial el) trace))) <= HISTORY_CAPACITY)%nat).
  { apply Inv. cbn. unfold HISTORY_CAPACITY. lia. }
  split; [exact H | ]. split.
  - apply (step_history 0 (AudioProcess input)). exact H.
  - intros d Hd. rewrite onaudioprocess_history, Hd.
    now apply pushHistory_spec.
Qed.
(** *** Recording sessions *)

(** C10. When [stopRecording] runs on a recording without samples, it
    reports it, sends nothing to the server and leaves the target element
    as it is. *)
Theorem stop_without_audio (st : State) :
  isRecording st = true ->
  length (concat (recordedChunks st)) = 0%nat ->
  let st' := stopRecording st in
  effects st' = effects st ++ [Toast (str "Transcribing" ++ [ellipsis]) info 3200;
                               Toast (str "No audio recorded.") info 1600] /\
  count isFetch (effects st') = count isFetch (effects st) /\
  suspended st' = suspended st /\
  inflight st' = inflight st /\
  currentEl st' = currentEl st /\
  isRecording st' = false.
Proof.
  intros Hr Hempty. apply Nat.eqb_eq in Hempty.
  unfold_handlers. rewrite Hr.
  split_state; rewrite Hempty; cbn; rewrite <- ?app_assoc; cbn [app]; count_effects;
    repeat split; auto; lia.
Qed.

Definition textarea (s : string) : Element :=
  Field {| value := str s; selectionStart := Some (String.length s);
           selectionEnd := Some (String.length s) |}.

Lemma stop_without_audio_witness :
  let st := startRecording_granted 0 48000 (initial (Some (textarea "Dear all, "))) in
  let st' := stopRecording st in
  isRecording st = true /\
  length (concat (recordedChunks st)) = 0%nat /\
  effects st' = effects st ++ [Toast (str "Transcribing" ++ [ellipsis]) info 3200;
                               Toast (str "No audio recorded.") info 1600] /\
  count isFetch (effects st') = count isFetch (effects st) /\
  suspended st' = suspended st /\
  inflight st' = inflight st /\
  currentEl st' = currentEl st /\
  isRecording st' = false.
Proof.
  intros st st'.
  assert (H1 : isRecording st = true) by reflexivity.
  assert (H2 : length (concat (recordedChunks st)) = 0%nat) by reflexivity.
  repeat (split; [assumption | ]).
  exact (stop_without_audio st H1 H2).
Defined.
(** The longest a recording may last, in milliseconds. *)
Definition MAX_RECORDING_MS : Z := 30000.

(** A trace in which timers are punctual: no task runs while an armed timer
    is overdue. *)
Fixpoint punctual (st : State) (trace : list (Z * Event)) : Prop :=
  match trace with
  | [] => True
  | (now, ev) :: rest =>
      map_Forall (fun _ deadline => now <= deadline) (timers st)
      /\ punctual (step now ev st) rest
  end.

(** While audio is captured for a recording, an armed timer is due within
    [MAX_RECORDING_MS] of its start. *)
Definition timed (st : State) : Prop :=
  isRecording st = true -> audioCtx st <> None ->
  exists id deadline,
    timers st !! id = Some deadline /\ deadline <= recordingStartTime st + MAX_RECORDING_MS.

Lemma startRecording_granted_timer now sampleRate st :
  let st' := startRecording_granted now sampleRate st in
  isRecording st' = true /\
  recordingStartTime st' = now /\
  exists id, maxRecordingTimer st' = Some id /\
             timers st' !! id = Some (now + MAX_RECORDING_MS).
Proof.
  unfold startRecording_granted, setTimeout. unfold_handlers.
  split_state; (split; [reflexivity | split; [reflexivity | ]]);
    eexists; (split; [reflexivity | ]); apply lookup_insert_eq.
Qed.

Lemma stopRecording_isRecording st : isRecording (stopRecording st) = false.
Proof. apply stopRecording_frame. Qed.

Lemma onaudioprocess_session st input :
  let st' := onaudioprocess input st in
  isRecording st' = false \/
  isRecording st' = isRecording st /\ audioCtx st' = audioCtx st /\
  timers st' = timers st /\ recordingStartTime st' = recordingStartTime st.
Proof.
  unfold onaudioprocess.
  destruct (audioCtx st) as [sampleRate | ] eqn:Ectx; [ | right; auto].
  destruct (downsampleFloat32 input sampleRate RECORD_SAMPLE_RATE) as [d | ]; [ | right; auto].
  cbn zeta.
  destruct (voiceCandidate _ _ _); cbn;
    destruct (hasDetectedVoice (vad st)) eqn:Ehas; cbn;
    repeat match goal with
           | |- context [if ?b then _ else _] => destruct b eqn:?
           end;
    cbn; rewrite ?stopRecording_isRecording; auto;
    right; split_state; auto 10.
Qed.

Lemma step_timed now ev st : timed st -> timed (step now ev st).
Proof.
  unfold timed. intros H.
  destruct ev as [ | sampleRate | | input | id | | r]; cbn [step].
  - unfold micClick, startRecording.
    destruct (currentEl st); [ | assumption].
    destruct (isRecording st) eqn:E.
    + rewrite stopRecording_isRecording. discriminate.
    + cbn. congruence.
  - destruct (pendingStarts st); [assumption | ].
    destruct (startRecording_granted_timer now sampleRate (set_pendingStarts n st))
      as (_ & -> & id & _ & Hid).
    intros _ _. exists id, (now + MAX_RECORDING_MS). split; [assumption | lia].
  - destruct (pendingStarts st); [assumption | ].
    unfold startRecording_failed. unfold_handlers. split_state; congruence.
  - destruct (onaudioprocess_session st input) as [E | (-> & -> & -> & ->)].
    + rewrite E. discriminate.
    + assumption.
  - destruct (timers st !! id); [ | assumption].
    unfold maxRecordingTimeout. cbn.
    destruct (isRecording st) eqn:E.
    + rewrite stopRecording_isRecording. discriminate.
    + cbn. congruence.
  - unfold stopRecording_upload. unfold_handlers.
    destruct (suspended st); split_state; assumption.
  - unfold stopRecording_response, stopRecording_catch. unfold_handlers.
    destruct (inflight st); [assumption | ].
    destruct r as [message | status | [[ | c e] | ] t]; cbn;
      try destruct (currentEl st); try destruct (trim _); split_state; assumption.
Qed.

Lemma run_timed trace : forall st, timed st -> timed (run st trace).
Proof.
  induction trace as [ | [now ev] trace IH]; intros st H; [exact H | ].
  apply IH. now apply step_timed.
Qed.

Lemma punctual_app : forall trace st rest,
  punctual st (trace ++ rest) -> punctual (run st trace) rest.
Proof.
  induction trace as [ | [now ev] trace IH]; intros st rest H; [exact H | ].
  destruct H as [_ H]. now apply IH.
Qed.

(** C9. [startRecording] arms a timer due 30000 ms after the recording
    begins, whose callback stops a recording that is still going on
    (tearing the capture down), and which [cleanupRecording] clears; so,
    timers being punctual, every block captured for a recording arrives
    within 30000 ms of its start, whatever the detector has heard. *)
Theorem max_recording_duration (el : option Element) (trace : list (Z * Event))
        (t : Z) (input : list float) :
  punctual (initial el) (trace ++ [(t, AudioProcess input)]) ->
  let st := run (initial el) trace in
  (isRecording st = true -> audioCtx st <> None ->
   t <= recordingStartTime st + MAX_RECORDING_MS) /\
  (forall now sampleRate st0,
      let st1 := startRecording_granted now sampleRate st0 in
      isRecording st1 = true /\ recordingStartTime st1 = now /\
      exists id, maxRecordingTimer st1 = Some id /\
                 timers st1 !! id = Some (now + MAX_RECORDING_MS)) /\
  (forall now id deadline st0,
      timers st0 !! id = Some deadline -> isRecording st0 = true ->
      let st1 := step now (TimerFired id) st0 in
      isRecording st1 = false /\ audioCtx st1 = None) /\
  (forall id st0,
      maxRecordingTimer st0 = Some id ->
      timers (cleanupRecording st0) !! id = None /\
      maxRecordingTimer (cleanupRecording st0) = None).
Proof.
  intros P. cbv zeta. split; [ | split; [ | split ] ].
  - intros Hr Hx.
    assert (T : timed (initial el)) by (intros E; discriminate).
    apply (run_timed trace) in T.
    destruct (T Hr Hx) as (id & deadline & Hid & Hd).
    apply punctual_app in P. destruct P as [P _].
    specialize (P id deadline Hid). cbn in P. lia.
  - intros now sampleRate st0. apply startRecording_granted_timer.
  - intros now id deadline st0 Hid Hr. cbn [step]. rewrite Hid.
    unfold maxRecordingTimeout. cbn. rewrite Hr.
    match goal with |- context [stopRecording ?s] =>
      destruct (stopRecording_frame s) as (_ & _ & H1 & H2 & _) end.
    split; [exact H1 | apply H2; cbn; exact Hr].
  - intros id st0 Hid. unfold cleanupRecording. cbn. rewrite Hid. cbn.
    split; [apply lookup_delete_eq | reflexivity].
Qed.
Definition dictation : list (Z * Event) :=
  [(0, Click); (10, MediaGranted 48000); (20, AudioProcess (tone 0.5 ++ tone 0.25))].

Lemma max_recording_duration_witness :
  let el := Some (textarea "Dear all, ") in
  let st := run (initial el) dictation in
  punctual (initial el) (dictation ++ [(20000, AudioProcess silent)]) /\
  (isRecording st = true -> audioCtx st <> None ->
   20000 <= recordingStartTime st + MAX_RECORDING_MS) /\
  (forall now sampleRate st0,
      let st1 := startRecording_granted now sampleRate st0 in
      isRecording st1 = true /\ recordingStartTime st1 = now /\
      exists id, maxRecordingTimer st1 = Some id /\
                 timers st1 !! id = Some (now + MAX_RECORDING_MS)) /\
  (forall now id deadline st0,
      timers st0 !! id = Some deadline -> isRecording st0 = true ->
      let st1 := step now (TimerFired id) st0 in
      isRecording st1 = false /\ audioCtx st1 = None) /\
  (forall id st0,
      maxRecordingTimer st0 = Some id ->
      timers (cleanupRecording st0) !! id = None /\
      maxRecordingTimer (cleanupRecording st0) = None).
Proof.
  intros el st.
  assert (P : punctual (initial el) (dictation ++ [(20000, AudioProcess silent)])).
  { unfold dictation. cbn [app punctual].
    repeat match goal with
           | |- _ /\ _ => split
           | |- True => exact I
           | |- map_Forall _ _ => apply (bool_decide_unpack _); vm_compute; exact I
           end. }
  split; [exact P | ].
  exact (max_recording_duration el dictation 20000 silent P).
Defined.

Example dictation_recording :
  let st := run (initial (Some (textarea "Dear all, "))) dictation in
  isRecording st = true /\ audioCtx st = Some 48000%float /\
  recordingStartTime st = 10 /\ recordedChunks st = [[5461; -5461]].
Proof. vm_compute. auto. Qed.
End BatchFacts.

(** ** The streaming client *)

Module StreamingFacts.
Import Streaming.

#[local] Arguments str : simpl never.

(** The throttle of partial results, in the words of the specification:
    the hypothesis is not empty (it has been trimmed), has at least 3
    characters, differs from the last emitted text, comes at least 250 ms
    after the last emission, and is not a shorter prefix of the last emitted
    text. *)
Definition throttle_passes (lastEmittedText : text) (lastEmitTimestamp : Z)
           (hypothesis : text) (now : Z) : Prop :=
  hypothesis <> [] /\
  (3 <= length hypothesis)%nat /\
  hypothesis <> lastEmittedText /\
  250 <= now - lastEmitTimestamp /\
  ~ (hypothesis `prefix_of` lastEmittedText
     /\ (length hypothesis < length lastEmittedText)%nat).

Lemma startsWith_prefix : forall s p, startsWith s p = true <-> p `prefix_of` s.
Proof.
  induction s as [ | c s IH]; intros [ | d p]; simpl.
  - split; [intros _; apply prefix_nil | reflexivity].
  - split; [intros H; discriminate H | ]. intros [k Hk]. discriminate Hk.
  - split; [intros _; apply prefix_nil | reflexivity].
  - rewrite andb_true_iff, IH, N.eqb_eq. split.
    + intros [-> H]. now apply prefix_cons.
    + intros H. split.
      * now apply prefix_cons_inv_1 in H.
      * now apply prefix_cons_inv_2 in H.
Qed.

(** The tests of the source are the five checks. *)
Lemma partialAccepted_spec st t now :
  partialAccepted st t now = true
  <-> throttle_passes (lastPartial st) (lastPartialTs st) t now.
Proof.
  unfold partialAccepted, throttle_passes, PARTIAL_MIN_CHARS, PARTIAL_DEBOUNCE_MS, text_eqb.
  destruct t as [ | c t]; [split; [discriminate | intros [H _]; congruence] | ].
  destruct (Nat.ltb_spec (length (c :: t)) 3) as [H3 | H3];
    [split; [discriminate | intros (_ & H & _); lia] | ].
  destruct (bool_decide _) eqn:He;
    [apply bool_decide_eq_true in He;
     split; [discriminate | intros (_ & _ & H & _); congruence] | ].
  apply bool_decide_eq_false in He.
  destruct (Z.ltb_spec (now - lastPartialTs st) 250) as [Hd | Hd];
    [split; [discriminate | intros (_ & _ & _ & H & _); lia] | ].
  destruct (startsWith (lastPartial st) (c :: t)) eqn:Hp.
  - apply startsWith_prefix in Hp.
    destruct (Nat.ltb_spec (length (c :: t)) (length (lastPartial st))) as [Hl | Hl].
    + destruct (lastPartial st) as [ | c' l'] eqn:El; [simpl in Hl; lia | ].
      cbn [andb]. split; [discriminate | ]. intros (_ & _ & _ & _ & H). tauto.
    + rewrite andb_false_r. split; [ | reflexivity]. intros _.
      repeat split; try assumption; try discriminate. intros [_ H]. lia.
  - rewrite andb_false_r. cbn [andb]. split; [ | reflexivity]. intros _.
    repeat split; try assumption; try discriminate.
    intros [H _]. apply startsWith_prefix in H. congruence.
Qed.

(** The live text shown in the target element, if any. *)
Definition liveText (st : State) : option text :=
  match currentEl st with
  | Some (Field input) =>
      match liveStartIdx st with
      | Some start => Some (slice (value input) start (start + livePrevLen st))
      | None => None
      end
  | Some (Editor e) => if liveNode st then liveSpan e else None
  | None => None
  end.

(** A target in the state the script expects: positions lie within the
    value, and the live span, once created, is still attached. *)
Definition targetOk (st : State) (el : Element) : Prop :=
  match el with
  | Field input =>
      match liveStartIdx st with
      | Some start => (start <= length (value input))%nat
      | None => match selectionStart input with
                | Some start => (start <= length (value input))%nat
                | None => True
                end
      end
  | Editor e => liveNode st = true -> liveSpan e <> None
  end.

Lemma slice_inserted (v t after : text) (start : nat) :
  (start <= length v)%nat ->
  slice (slice v 0 start ++ t ++ after) start (start + length t) = t.
Proof.
  intros Hs. unfold slice. rewrite drop_0, Nat.sub_0_r.
  rewrite drop_app_length' by (rewrite length_take; lia).
  replace (start + length t - start)%nat with (length t) by lia.
  apply take_app_length.
Qed.

Lemma updateLiveText_shows el t st :
  targetOk st el -> liveText (updateLiveText el t st) = Some t.
Proof.
  unfold targetOk, liveText, updateLiveText.
  destruct el as [input | e].
  - intros H.
    destruct (liveStartIdx st) as [start | ] eqn:E; cbn; rewrite ?E; cbn.
    + f_equal. now apply slice_inserted.
    + destruct (selectionStart input) as [start | ]; cbn; f_equal;
        now apply slice_inserted.
  - intros H. cbn. destruct (liveNode st); [ | reflexivity].
    destruct (liveSpan e); [reflexivity | ]. now specialize (H eq_refl).
Qed.
Ltac split_state :=
  repeat (cbn;
          match goal with
          | |- context [match micBtn ?s with _ => _ end] => destruct (micBtn s) eqn:?
          | |- context [match ws ?s with _ => _ end] => destruct (ws s) eqn:?
          end);
  cbn.

Lemma updateLiveText_throttle el t st :
  lastPartial (updateLiveText el t st) = lastPartial st /\
  lastPartialTs (updateLiveText el t st) = lastPartialTs st.
Proof.
  unfold updateLiveText. destruct el as [input | e]; [ | split; reflexivity].
  destruct (liveStartIdx st); split; reflexivity.
Qed.

(** What the handler does with a partial result. *)
Lemma handle_partial st raw now :
  let t := trim (default [] raw) in
  let recorded := set_lastPartialTs now (set_lastPartial t st) in
  handleWsMessage now (Partial raw) st
  = if partialAccepted st t now
    then match currentEl st with
         | Some el => updateLiveText el t recorded
         | None => recorded
         end
    else st.
Proof. reflexivity. Qed.

(** The outcome of a partial result: either it passes the throttle, is
    recorded as the last emitted text and, when there is a target element,
    becomes its live text; or it fails and nothing changes. *)
Definition partial_outcome (st : State) (t : text) (now : Z) (st' : State) : Prop :=
  let recorded := set_lastPartialTs now (set_lastPartial t st) in
  (throttle_passes (lastPartial st) (lastPartialTs st) t now /\
   lastPartial st' = t /\ lastPartialTs st' = now /\
   match currentEl st with
   | Some el => st' = updateLiveText el t recorded
                /\ (targetOk st el -> liveText st' = Some t)
   | None => st' = recorded /\ liveText st' = None
   end)
  \/ (~ throttle_passes (lastPartial st) (lastPartialTs st) t now /\ st' = st).

Lemma handle_partial_outcome st raw now :
  partial_outcome st (trim (default [] raw)) now (handleWsMessage now (Partial raw) st).
Proof.
  unfold partial_outcome. rewrite handle_partial. cbv zeta.
  set (t := trim (default [] raw)).
  destruct (partialAccepted st t now) eqn:E.
  - left. apply partialAccepted_spec in E. split; [exact E | ].
    destruct (currentEl st) as [el | ] eqn:Eel.
    + destruct (updateLiveText_throttle el t (set_lastPartialTs now (set_lastPartial t st)))
        as [-> ->].
      repeat split; try reflexivity.
      intros Hok. apply updateLiveText_shows.
      destruct el; exact Hok.
    + repeat split; try reflexivity. unfold liveText. cbn. now rewrite Eel.
  - right. split; [ | reflexivity].
    intros H. apply partialAccepted_spec in H. congruence.
Qed.

(** C1 (amended). A partial result passes the throttle exactly when it
    survives the five checks; it is then recorded as the last emitted text,
    whether or not there is a target element, and inserted as live text when
    there is one.  Otherwise nothing changes.  While the last emitted text is
    "hello wor", the hypothesis "hello" is dropped, and "hello world" passes
    once 250 ms have elapsed. *)
Theorem partial_throttle (st : State) (raw : option text) (now : Z) :
  partial_outcome st (trim (default [] raw)) now (handleWsMessage now (Partial raw) st)
  /\ (lastPartial st = str "hello wor" ->
      handleWsMessage now (Partial (Some (str "hello"))) st = st)
  /\ (lastPartial st = str "hello wor" ->
      PARTIAL_DEBOUNCE_MS <= now - lastPartialTs st ->
      throttle_passes (lastPartial st) (lastPartialTs st) (str "hello world") now
      /\ lastPartial (handleWsMessage now (Partial (Some (str "hello world"))) st)
         = str "hello world").
Proof.
  split; [apply handle_partial_outcome | ]. split.
  - intros H. rewrite handle_partial. cbv zeta.
    replace (partialAccepted st (trim (default [] (Some (str "hello")))) now) with false;
      [reflexivity | ].
    unfold partialAccepted. rewrite H.
    change (trim (default [] (Some (str "hello")))) with (str "hello").
    vm_compute (str "hello"). vm_compute (str "hello wor").
    cbn. destruct (now - lastPartialTs st <? PARTIAL_DEBOUNCE_MS); reflexivity.
  - intros H Hd.
    assert (A : partialAccepted st (str "hello world") now = true).
    { unfold partialAccepted. rewrite H.
      vm_compute (str "hello world"). vm_compute (str "hello wor"). cbn.
      destruct (Z.ltb_spec (now - lastPartialTs st) PARTIAL_DEBOUNCE_MS); [lia | reflexivity]. }
    split; [now apply partialAccepted_spec | ].
    rewrite handle_partial. cbv zeta.
    change (trim (default [] (Some (str "hello world")))) with (str "hello world").
    rewrite A. destruct (currentEl st) as [el | ]; [ | reflexivity].
    now rewrite (proj1 (updateLiveText_throttle _ _ _)).
Qed.
(** *** A dictation into a text area *)

Definition textarea (s : string) : Element :=
  Field {| value := str s; selectionStart := Some (String.length s);
           selectionEnd := Some (String.length s) |}.

(** The page with the mic button shown next to the focused element. *)
Definition page (el : option Element) : State := set_micBtn (Some BtnIdle) (initial el).

(** A session up to the point where audio is streamed. *)
Definition streaming (el : option Element) : State :=
  startRecording_opened (ws_onopen (startRecording_media 48000 (page el))).

Definition helloWor : State :=
  handleWsMessage 1000 (Partial (Some (str "hello wor")))
                  (streaming (Some (textarea "Dear all, "))).

(** C1, as stated, fails.  With no target element (it has left the
    document) a hypothesis that passes the five checks is recorded as the
    last emitted text although nothing is inserted; and after "hello wor"
    and then "goodbye" have been emitted, "hello" is emitted in the same
    session. *)
Lemma partial_throttle_counterexample :
  let st := streaming None in
  let st' := handleWsMessage 1000 (Partial (Some (str "hello"))) st in
  let goodbye := handleWsMessage 2000 (Partial (Some (str "goodbye"))) helloWor in
  let hello := handleWsMessage 3000 (Partial (Some (str "hello"))) goodbye in
  (throttle_passes (lastPartial st) (lastPartialTs st) (str "hello") 1000
   /\ liveText st' = None /\ currentEl st' = None
   /\ lastPartial st' = str "hello" /\ lastPartialTs st' = 1000)
  /\ (liveText helloWor = Some (str "hello wor")
      /\ liveText goodbye = Some (str "goodbye")
      /\ liveText hello = Some (str "hello")
      /\ currentEl hello = Some (textarea "Dear all, hello")).
Proof.
  cbv zeta. split.
  - split; [apply partialAccepted_spec; vm_compute; reflexivity | ].
    vm_compute. auto.
  - vm_compute. auto.
Qed.

Lemma stopRecording_keeps_target st :
  let st' := stopRecording st in
  lastPartial st' = lastPartial st /\ lastPartialTs st' = lastPartialTs st /\
  currentEl st' = currentEl st /\ liveStartIdx st' = liveStartIdx st /\
  livePrevLen st' = livePrevLen st /\ liveNode st' = liveNode st.
Proof.
  unfold stopRecording, setBtnProcessing, setBtn, showToast, wsSend, emit, cleanupAudioGraph.
  destruct (isRecording st); cbn; [ | auto 10].
  destruct (micBtn st); cbn; destruct (ws st) as [[ | | | ] | ]; cbn; auto 10.
Qed.

(** C6 (amended). After [stopRecording] has sent [Stop], a partial result
    is handled as before: the throttle state and the target are those the
    stop found, and the partial is recorded and inserted under the same five
    checks. *)
Theorem partial_after_stop (st : State) (raw : option text) (now : Z) :
  let stopping := stopRecording st in
  let t := trim (default [] raw) in
  lastPartial stopping = lastPartial st /\
  lastPartialTs stopping = lastPartialTs st /\
  currentEl stopping = currentEl st /\
  liveText stopping = liveText st /\
  partialAccepted stopping t now = partialAccepted st t now /\
  partial_outcome stopping t now (handleWsMessage now (Partial raw) stopping).
Proof.
  cbv zeta.
  destruct (stopRecording_keeps_target st) as (H1 & H2 & H3 & H4 & H5 & H6). cbv zeta in *.
  repeat split; try assumption.
  - unfold liveText. now rewrite H3, H4, H5, H6.
  - unfold partialAccepted. now rewrite H1, H2.
  - apply handle_partial_outcome.
Qed.

(** C6, as stated, fails: a partial result that arrives after the stop is
    inserted as live text. *)
Lemma partial_after_stop_counterexample :
  let stopping := stopRecording helloWor in
  let st' := handleWsMessage 2000 (Partial (Some (str "hello world"))) stopping in
  isRecording helloWor = true /\
  isRecording stopping = false /\
  last (effects stopping) = Some (WsSend Stop) /\
  liveText stopping = Some (str "hello wor") /\
  liveText st' = Some (str "hello world") /\
  currentEl st' = Some (textarea "Dear all, hello world").
Proof. vm_compute. auto 10. Qed.

(** C7: the socket closes while the client waits for the final result
    ([stopRecording] has run).  The handler does nothing: the live text
    stays in the target, the throttle state and the socket variable are
    kept and the button still shows the spinner.  The same close before the
    stop clears all of it. *)
Theorem close_while_stopping :
  let stopping := stopRecording helloWor in
  let st' := ws_onclose stopping in
  let closed := ws_onclose helloWor in
  (isRecording stopping = false /\
   liveText st' = Some (str "hello wor") /\
   currentEl st' = Some (textarea "Dear all, hello wor") /\
   lastPartial st' = str "hello wor" /\ lastPartialTs st' = 1000 /\
   ws st' = Some CLOSED /\
   micBtn st' = Some BtnProcessing)
  /\ (liveText closed = None /\
      currentEl closed = Some (textarea "Dear all, ") /\
      lastPartial closed = [] /\ lastPartialTs closed = 0 /\
      ws closed = None /\ isRecording closed = false /\
      micBtn closed = Some BtnIdle).
Proof. vm_compute. auto 20. Qed.

End StreamingFacts.

(** ** The resampler: scaling to 16 bits *)

(** The sample that the specification asks for, from the average of a
    window: clamped, then scaled by 32768 when negative and by 32767
    otherwise (what [floatTo16BitPCM] does to a sample). *)
Definition pcm_asymmetric (average : float) : Z :=
  let s := clamp average in
  ToInt16 (if (s <? 0)%float then s * 32768 else s * 32767)%float.

(** C5: the decimating branch scales every window average by 32767, the
    negative ones too, while the branch that does not resample scales
    negative samples by 32768. *)
Theorem decimation_scale :
  downsampleFloat32 [(-1); (-1); (-1)]%float 48000 16000 = Some [-32767]
  /\ pcm_asymmetric (-1) = -32768
  /\ downsampleFloat32 [(-0.5); (-0.5); (-0.5)]%float 48000 16000 = Some [-16383]
  /\ pcm_asymmetric (-0.5) = -16384
  /\ downsampleFloat32 [(-1); (-0.5)]%float 16000 16000 = Some [-32768; -16384]
  /\ downsampleFloat32 [1; 1; 1]%float 48000 16000 = Some [32767]
  /\ pcm_asymmetric 1 = 32767.
Proof. vm_compute. auto 10. Qed.


(** * Further properties *)

(** ** The resampler: edge cases *)

Module ResamplerEdges.

Local Open Scope float_scope.

Lemma Prim2SF_zero : Prim2SF 0 = S754_zero false.
Proof. reflexivity. Qed.

(** Zero divided by anything is a zero or NaN. *)
Lemma floor_zero_div (x : float) :
  Math_floor (0 / x) = Int 0 \/ Math_floor (0 / x) = NaN.
Proof.
  unfold Math_floor. rewrite div_spec. unfold SF64div. rewrite Prim2SF_zero.
  destruct (Prim2SF x) as [s | s | | s m e]; cbn; auto.
Qed.

(** The length of the result for an empty block: [0 / ratio] is a zero or
    NaN, and both make an empty array. *)
Lemma newLen_empty (ratio : float) : ToIndex (Math_floor (0 / ratio)) = Some 0%nat.
Proof. destruct (floor_zero_div ratio) as [-> | ->]; reflexivity. Qed.

(** X1: an empty block resamples to an empty block, whatever the two rates
    are, also when they are zero, infinite or NaN: the resampler raises no
    [RangeError] on it. *)
Theorem downsample_empty (inRate outRate : float) :
  downsampleFloat32 [] inRate outRate = Some [].
Proof.
  unfold downsampleFloat32.
  destruct (outRate =? inRate); [reflexivity | ].
  destruct (inRate <? outRate); [reflexivity | ].
  change (of_nat (length (@nil float))) with 0.
  cbv zeta. now rewrite newLen_empty.
Qed.

Lemma leb_cases (x y : float) :
  (x <=? y) = true -> (y =? x) = true \/ (x <? y) = true.
Proof.
  rewrite leb_spec, FloatAxioms.eqb_spec, ltb_spec. unfold SFleb, SFeqb, SFltb.
  destruct (SFcompare (Prim2SF x) (Prim2SF y)) as [c | ] eqn:E; [ | discriminate].
  apply SFcompare_antisym in E. rewrite E.
  destruct c; cbn; auto; discriminate.
Qed.

(** X2: no upsampling: when the target rate is not below the input rate the
    block is only converted to 16 bits, sample for sample. *)
Theorem no_upsampling (buffer : list float) (inRate outRate : float) :
  (inRate <=? outRate) = true ->
  downsampleFloat32 buffer inRate outRate = Some (floatTo16BitPCM (Float32Array buffer))
  /\ length (floatTo16BitPCM (Float32Array buffer)) = length buffer.
Proof.
  intros H. split; [ | apply floatTo16BitPCM_length].
  unfold downsampleFloat32.
  destruct (leb_cases _ _ H) as [-> | E]; [reflexivity | ].
  rewrite E. now destruct (outRate =? inRate).
Qed.

Lemma no_upsampling_witness :
  (8000 <=? 16000) = true /\
  downsampleFloat32 [0.5; (-0.25)] 8000 16000
  = Some (floatTo16BitPCM (Float32Array [0.5; (-0.25)]))
  /\ length (floatTo16BitPCM (Float32Array [0.5; (-0.25)])) = length [0.5; (-0.25)].
Proof.
  assert (H : (8000 <=? 16000) = true) by reflexivity.
  split; [exact H | ].
  exact (no_upsampling [0.5; (-0.25)] 8000 16000 H).
Defined.

Lemma SFcompare_refl (x : spec_float) :
  x <> S754_nan -> SFcompare x x = Some Eq.
Proof.
  destruct x as [s | s | | s m e]; cbn; intros H; try congruence.
  - now destruct s.
  - destruct s; rewrite Z.compare_refl;
      change (PosDef.Pos.compare_cont Eq m m) with (Pos.compare m m);
      now rewrite Pos.compare_refl.
Qed.

Lemma leb_not_nan (x y : float) : (x <=? y) = true -> is_nan x = false /\ is_nan y = false.
Proof.
  unfold is_nan. rewrite leb_spec, !FloatAxioms.eqb_spec. unfold SFleb, SFeqb.
  intros H.
  assert (Prim2SF x <> S754_nan /\ Prim2SF y <> S754_nan) as [Hx Hy].
  { destruct (Prim2SF x), (Prim2SF y); try discriminate; split; congruence. }
  now rewrite !SFcompare_refl.
Qed.

Lemma clamp_high (x : float) : (1 <=? x) = true -> clamp x = 1.
Proof.
  intros H. unfold clamp, Math_min.
  destruct (leb_not_nan _ _ H) as [_ Hx]. rewrite Hx.
  change (is_nan 1) with false. cbn [orb].
  rewrite (leb_not_gt _ _ H). reflexivity.
Qed.

Lemma below_minus_one (x : float) : (x <=? -1) = true -> (x <? 1) = true.
Proof.
  rewrite leb_spec, ltb_spec. unfold SFleb, SFltb.
  change (Prim2SF (-1)) with (S754_finite true 4503599627370496 (-52)).
  rewrite Prim2SF_one.
  destruct (Prim2SF x) as [[ | ] | [ | ] | | [ | ] m e];
    intros H; try reflexivity; discriminate H.
Qed.

Lemma clamp_low (x : float) : (x <=? -1) = true -> clamp x = -1.
Proof.
  intros H. unfold clamp, Math_min.
  destruct (leb_not_nan _ _ H) as [Hx _]. rewrite Hx.
  change (is_nan 1) with false. cbn [orb].
  rewrite (below_minus_one _ H).
  unfold Math_max. rewrite Hx.
  change (is_nan (-1)) with false. cbn [orb].
  rewrite (leb_not_gt _ _ H). reflexivity.
Qed.

(** X3: conversion saturates: a sample at or above 1 becomes 32767 and one at
    or below -1 becomes -32768; there is no wrap-around. *)
Theorem floatTo16BitPCM_saturates (a : list float) :
  Forall2 (fun x y => ((1 <=? x) = true -> y = 32767%Z)
                      /\ ((x <=? -1) = true -> y = (-32768)%Z))
          a (floatTo16BitPCM (Float32Array a)).
Proof.
  cbn [floatTo16BitPCM]. induction a as [ | x a IH]; constructor; [ | exact IH].
  split; intros H.
  - now rewrite (clamp_high x H).
  - now rewrite (clamp_low x H).
Qed.

End ResamplerEdges.

(** ** The batch client: sessions and the detector *)

Module BatchSessions.
Import Batch BatchFacts.

#[local] Arguments str : simpl never.
#[local] Arguments pushHistory : simpl never.
#[local] Arguments rmsOf : simpl never.
#[local] Arguments zcrOf : simpl never.
#[local] Arguments floatTo16BitPCM : simpl never.
#[local] Arguments Math_min : simpl never.
#[local] Arguments Z.ltb : simpl never.
#[local] Arguments Z.max : simpl never.
#[local] Arguments Z.add : simpl never.
#[local] Arguments count : simpl never.

(** X4: an empty capture block is never a voice candidate: while the capture
    is live it is processed as a quiet block. *)
Theorem empty_block_quiet (st : State) (sampleRate : float) :
  audioCtx st = Some sampleRate -> classify st [] = Quiet.
Proof.
  intros H. unfold classify, downsampled. rewrite H.
  assert (E : downsampleFloat32 [] sampleRate RECORD_SAMPLE_RATE = Some []).
  { unfold downsampleFloat32.
    destruct (RECORD_SAMPLE_RATE =? sampleRate)%float; [reflexivity | ].
    destruct (sampleRate <? RECORD_SAMPLE_RATE)%float; [reflexivity | ].
    change (of_nat (length (@nil float))) with 0%float.
    cbv zeta. now rewrite ResamplerEdges.newLen_empty. }
  rewrite E. cbv zeta.
  unfold voiceCandidate.
  change (zcrOf []) with nan. change (0.02 <? nan)%float with false.
  now rewrite andb_false_r.
Qed.

Lemma empty_block_quiet_witness :
  let st := startRecording_granted 0 44100 (initial None) in
  audioCtx st = Some 44100%float /\ classify st [] = Quiet.
Proof.
  intros st.
  assert (H : audioCtx st = Some 44100%float) by reflexivity.
  split; [exact H | exact (empty_block_quiet st 44100 H)].
Defined.

(** X5: once a recording has been stopped, blocks that still arrive are not
    captured: they leave the state as the stop left it. *)
Theorem blocks_after_stop_ignored (st : State) (blocks : list (list float)) :
  isRecording st = true ->
  feed (stopRecording st) blocks = stopRecording st.
Proof.
  intros H. apply feed_dead.
  now apply (stopRecording_frame st).
Qed.

Lemma blocks_after_stop_ignored_witness :
  isRecording confirmed = true /\
  feed (stopRecording confirmed) [tone 0.5; silent] = stopRecording confirmed.
Proof.
  assert (H : isRecording confirmed = true) by (vm_compute; reflexivity).
  split; [exact H | exact (blocks_after_stop_ignored confirmed _ H)].
Defined.

(** X6: a second stop does nothing: no second upload is prepared. *)
Theorem stopRecording_idempotent (st : State) :
  stopRecording (stopRecording st) = stopRecording st.
Proof.
  pose proof (stopRecording_isRecording st) as H.
  generalize dependent (stopRecording st). intros st' H.
  unfold stopRecording. now rewrite H.
Qed.

(** X7: the upload carries the recorded chunks, concatenated in the order of
    their capture, with the language tag "en". *)
Theorem upload_is_recorded_audio (st : State) :
  isRecording st = true ->
  suspended st = [] ->
  concat (recordedChunks st) <> [] ->
  let st' := stopRecording_upload (stopRecording st) in
  effects st' = effects st ++ [Toast (str "Transcribing" ++ [ellipsis]) info 3200;
                               Fetch (concat (recordedChunks st)) (str "en")]
  /\ suspended st' = [] /\ inflight st' = S (inflight st)
  /\ isRecording st' = false /\ audioCtx st' = None.
Proof.
  intros Hr Hs Hne.
  assert (Hlen : (length (concat (recordedChunks st)) =? 0)%nat = false).
  { apply Nat.eqb_neq. destruct (concat (recordedChunks st)); [congruence | discriminate]. }
  unfold stopRecording_upload. unfold_handlers. rewrite Hr.
  split_state; rewrite Hlen; cbn; rewrite Hs; cbn; rewrite <- ?app_assoc; auto 10.
Qed.

Lemma upload_is_recorded_audio_witness :
  let st := run (initial (Some (textarea "Dear all, "))) dictation in
  let st' := stopRecording_upload (stopRecording st) in
  isRecording st = true /\ suspended st = [] /\ concat (recordedChunks st) <> [] /\
  effects st' = effects st ++ [Toast (str "Transcribing" ++ [ellipsis]) info 3200;
                               Fetch (concat (recordedChunks st)) (str "en")]
  /\ suspended st' = [] /\ inflight st' = S (inflight st)
  /\ isRecording st' = false /\ audioCtx st' = None.
Proof.
  intros st st'.
  assert (H1 : isRecording st = true) by (vm_compute; reflexivity).
  assert (H2 : suspended st = []) by (vm_compute; reflexivity).
  assert (H3 : concat (recordedChunks st) <> []) by (vm_compute; discriminate).
  repeat (split; [assumption | ]).
  exact (upload_is_recorded_audio st H1 H2 H3).
Defined.

End BatchSessions.

Module BatchInvariants.
Import Batch BatchFacts.

#[local] Arguments str : simpl never.
#[local] Arguments pushHistory : simpl never.
#[local] Arguments rmsOf : simpl never.
#[local] Arguments zcrOf : simpl never.
#[local] Arguments floatTo16BitPCM : simpl never.
#[local] Arguments Math_min : simpl never.
#[local] Arguments Z.ltb : simpl never.
#[local] Arguments Z.max : simpl never.
#[local] Arguments Z.add : simpl never.
#[local] Arguments count : simpl never.

(** What the detector and the session look like between two tasks. *)
Record Steady (st : State) : Prop := {
  capture_recording : audioCtx st <> None -> isRecording st = true;
  frames_nonneg : 0 <= voiceDetectedFrames (vad st);
  silence_nonneg : 0 <= silenceFrames (vad st);
  silence_bounded : silenceFrames (vad st) <= 46;
  silence_live : audioCtx st <> None -> silenceFrames (vad st) <= 45;
  unconfirmed : voiceConfirmed st = false ->
                silenceFrames (vad st) = 0 /\ voiceDetectedFrames (vad st) <= 5
}.

Lemma onaudioprocess_steady st input : Steady st -> Steady (onaudioprocess input st).
Proof.
  intros [K F S B L U].
  destruct (classify st input) eqn:Hk.
  - pose proof (onaudioprocess_voice st input Hk) as (Hf & Hs & Hc & _ & Hr & Ha).
    cbv zeta in *.
    split; rewrite ?Hf, ?Hs, ?Hc, ?Hr, ?Ha; try lia; auto.
  - pose proof (onaudioprocess_quiet st input Hk) as (Hf & Hs & Hc & _ & Hstop).
    assert (Hlive : audioCtx st <> None) by (apply classify_live with input; congruence).
    specialize (L Hlive). specialize (K Hlive).
    cbv zeta in *.
    destruct (voiceConfirmed st) eqn:Ec; cbn [andb] in Hstop.
    + destruct (Z.ltb_spec 45 (silenceFrames (vad st) + 1)).
      * destruct Hstop as (_ & Hr & Hx). specialize (Hx K).
        split; rewrite ?Hf, ?Hs, ?Hc, ?Hr, ?Hx; try lia; congruence.
      * destruct Hstop as (_ & Hr & Ha).
        split; rewrite ?Hf, ?Hs, ?Hc, ?Hr, ?Ha; try lia; auto; congruence.
    + destruct Hstop as (_ & Hr & Ha). destruct (U eq_refl) as [U1 U2].
      split; rewrite ?Hf, ?Hs, ?Hc, ?Hr, ?Ha; try lia; auto.
  - rewrite (onaudioprocess_rejected st input Hk). now split.
Qed.

(** The other tasks leave the detector alone and either keep the capture
    and the recording flag or end the capture. *)
Lemma step_frame now ev st :
  (forall input, ev <> AudioProcess input) ->
  (forall sampleRate, ev <> MediaGranted sampleRate \/ pendingStarts st = 0%nat) ->
  let st' := step now ev st in
  vad st' = vad st /\
  (audioCtx st' = None \/
   audioCtx st' = audioCtx st /\ isRecording st' = isRecording st).
Proof.
  intros Ha Hg. cbv zeta.
  destruct ev as [ | sampleRate | | input | id | | r]; cbn [step].
  - unfold micClick, startRecording.
    destruct (currentEl st); [ | auto].
    destruct (isRecording st) eqn:E; [ | cbn; auto].
    destruct (stopRecording_frame st) as (-> & _ & _ & Hx & _). auto.
  - destruct (Hg sampleRate) as [H | ->]; [congruence | auto].
  - destruct (pendingStarts st); [auto | ].
    unfold startRecording_failed. unfold_handlers. split_state; auto.
  - now destruct (Ha input).
  - destruct (timers st !! id); [ | auto].
    unfold maxRecordingTimeout. cbn.
    destruct (isRecording st) eqn:E; [ | cbn; auto].
    match goal with |- context [stopRecording ?s] =>
      destruct (stopRecording_frame s) as (-> & _ & _ & Hx & _) end.
    split; [reflexivity | left; apply Hx; exact E].
  - unfold stopRecording_upload. unfold_handlers.
    destruct (suspended st); split_state; auto.
  - rewrite stopRecording_response_vad. split; [reflexivity | right].
    unfold stopRecording_response, stopRecording_catch. unfold_handlers.
    destruct (inflight st); [auto | ].
    destruct r as [message | status | [[ | c e] | ] t]; cbn;
      try destruct (currentEl st); try destruct (trim _); split_state; auto.
Qed.

Lemma steady_frame st st' :
  Steady st -> vad st' = vad st ->
  (audioCtx st' = None \/
   audioCtx st' = audioCtx st /\ isRecording st' = isRecording st) ->
  Steady st'.
Proof.
  intros [K F S B L U] Hv Hc.
  assert (U' : voiceConfirmed st' = false ->
               silenceFrames (vad st') = 0 /\ voiceDetectedFrames (vad st') <= 5).
  { unfold voiceConfirmed in *. now rewrite Hv. }
  destruct Hc as [Hx | [Hx Hr]]; split; try exact U';
    rewrite ?Hv, ?Hx, ?Hr; auto; congruence.
Qed.

Lemma step_steady now ev st : Steady st -> Steady (step now ev st).
Proof.
  intros H.
  assert (G : forall ev,
             (forall input, ev <> AudioProcess input) ->
             (forall sampleRate, ev <> MediaGranted sampleRate \/ pendingStarts st = 0%nat) ->
             Steady (step now ev st)).
  { intros ev' Ha Hg. destruct (step_frame now ev' st Ha Hg) as (Hv & Hc).
    now apply (steady_frame st). }
  destruct ev as [ | sampleRate | | input | id | | r];
    try (apply G; [intros; discriminate | intros; left; discriminate]).
  - cbn [step]. destruct (pendingStarts st); [exact H | ].
    destruct (startRecording_granted_vad now sampleRate (set_pendingStarts n st))
      as (Hf & Hs & Hc & _ & Hr & _).
    cbv zeta in *.
    split; rewrite ?Hf, ?Hs, ?Hc, ?Hr; try lia; auto.
  - now apply onaudioprocess_steady.
Qed.

(** X8: whatever happens on the page, between two tasks the capture is live
    only while a recording is going on, the two frame counters are never
    negative, the silence count never passes 46, and as long as no voice is
    confirmed no silence is counted and the voice count is at most 5. *)
Theorem batch_steady (el : option Element) (trace : list (Z * Event)) :
  Steady (run (initial el) trace).
Proof.
  assert (Inv : forall trace st, Steady st -> Steady (run st trace)).
  { clear. induction trace as [ | [now ev] trace IH]; intros st H; [exact H | ].
    apply IH. now apply step_steady. }
  apply Inv. split; cbn; try lia; try congruence; intros _; split; lia.
Qed.

(** X9: before the onset, quiet blocks neither count as silence nor stop the
    recording, however long they last: each lowers the voice frame count
    by one, down to zero. *)
Theorem quiet_before_onset : forall (blocks : list (list float)) (st : State),
  voiceConfirmed st = false ->
  0 <= voiceDetectedFrames (vad st) ->
  along Quiet st blocks ->
  let st' := feed st blocks in
  voiceConfirmed st' = false /\
  silenceFrames (vad st') = silenceFrames (vad st) /\
  voiceDetectedFrames (vad st')
  = Z.max 0 (voiceDetectedFrames (vad st) - Z.of_nat (length blocks)) /\
  isRecording st' = isRecording st /\
  audioCtx st' = audioCtx st /\
  autoStops st' = autoStops st.
Proof.
  induction blocks as [ | input blocks IH]; intros st Hc Hf H.
  - cbn. repeat split; auto. lia.
  - destruct H as [Hk H].
    pose proof (onaudioprocess_quiet st input Hk) as (Hf1 & Hs1 & Hc1 & _ & Hstop).
    cbv zeta in *. rewrite Hc in *. cbn [andb] in Hstop.
    destruct Hstop as (Ha & Hr & Hx).
    change (feed st (input :: blocks)) with (feed (onaudioprocess input st) blocks).
    set (st1 := onaudioprocess input st) in *.
    destruct (IH st1) as (I1 & I2 & I3 & I4 & I5 & I6); [congruence | lia | exact H | ].
    rewrite I1, I2, I3, I4, I5, I6, Hf1, Hs1, Ha, Hr, Hx. cbn [length].
    repeat split; auto. lia.
Qed.

Lemma quiet_before_onset_witness :
  let st := feed (startRecording_granted 0 16000 (initial None)) (take 3 rising) in
  let blocks := replicate 8 silent in
  let st' := feed st blocks in
  voiceConfirmed st = false /\
  0 <= voiceDetectedFrames (vad st) /\
  along Quiet st blocks /\
  voiceConfirmed st' = false /\
  silenceFrames (vad st') = silenceFrames (vad st) /\
  voiceDetectedFrames (vad st')
  = Z.max 0 (voiceDetectedFrames (vad st) - Z.of_nat (length blocks)) /\
  isRecording st' = isRecording st /\
  audioCtx st' = audioCtx st /\
  autoStops st' = autoStops st.
Proof.
  intros st blocks st'.
  assert (H1 : voiceConfirmed st = false) by (vm_compute; reflexivity).
  assert (H2 : 0 <= voiceDetectedFrames (vad st)) by (vm_compute; discriminate).
  assert (H3 : along Quiet st blocks) by (apply alongb_sound; vm_compute; reflexivity).
  split; [exact H1 | split; [exact H2 | split; [exact H3 | ]]].
  exact (quiet_before_onset blocks st H1 H2 H3).
Defined.

(** X10: within a recording the confirmation is never withdrawn. *)
Theorem confirmation_persists : forall (blocks : list (list float)) (st : State),
  voiceConfirmed st = true -> voiceConfirmed (feed st blocks) = true.
Proof.
  induction blocks as [ | input blocks IH]; intros st H; [exact H | ].
  change (feed st (input :: blocks)) with (feed (onaudioprocess input st) blocks).
  apply IH. destruct (classify st input) eqn:Hk.
  - pose proof (onaudioprocess_voice st input Hk) as (_ & _ & Hc & _).
    cbv zeta in Hc. now rewrite Hc, H.
  - pose proof (onaudioprocess_quiet st input Hk) as (_ & _ & Hc & _). congruence.
  - now rewrite (onaudioprocess_rejected st input Hk).
Qed.

Lemma confirmation_persists_witness :
  voiceConfirmed confirmed = true /\
  voiceConfirmed (feed confirmed [silent; tone 0.001; silent]) = true.
Proof.
  assert (H : voiceConfirmed confirmed = true) by (vm_compute; reflexivity).
  split; [exact H | exact (confirmation_persists _ confirmed H)].
Defined.

End BatchInvariants.

(** ** Inserting the transcript *)

Module Insertion.
Import Batch BatchFacts.

#[local] Arguments str : simpl never.

(** X11: in a text field whose selection lies within its value, the inserted
    text replaces the selection and nothing else, can be read back at the
    start of the former selection, and the caret ends up right behind it. *)
Theorem insertTextAtCursor_field (v t : text) (start end_ : nat) :
  (start <= end_ <= length v)%nat ->
  exists input,
    insertTextAtCursor
      (Field {| value := v; selectionStart := Some start; selectionEnd := Some end_ |}) t
    = Field input /\
    value input = take start v ++ t ++ drop end_ v /\
    slice (value input) start (start + length t) = t /\
    length (value input) = (length v - (end_ - start) + length t)%nat /\
    selectionStart input = Some (start + length t)%nat /\
    selectionEnd input = Some (start + length t)%nat.
Proof.
  intros H. eexists. split; [reflexivity | ].
  cbn. unfold slice, slice_from. rewrite drop_0, Nat.sub_0_r.
  assert (Hlen : length (take start v ++ t ++ drop end_ v)
                 = (length v - (end_ - start) + length t)%nat).
  { rewrite !length_app, length_take, length_drop. lia. }
  repeat split.
  - rewrite drop_app_length' by (rewrite length_take; lia).
    replace (start + length t - start)%nat with (length t) by lia.
    apply take_app_length.
  - exact Hlen.
  - f_equal. rewrite Hlen. lia.
  - f_equal. rewrite Hlen. lia.
Qed.

Lemma insertTextAtCursor_field_witness :
  (5 <= 9 <= length (str "Dear all, bye"))%nat /\
  exists input,
    insertTextAtCursor
      (Field {| value := str "Dear all, bye"; selectionStart := Some 5%nat;
                selectionEnd := Some 9%nat |}) (str "Bob")
    = Field input /\
    value input = take 5 (str "Dear all, bye") ++ str "Bob" ++ drop 9 (str "Dear all, bye") /\
    slice (value input) 5 (5 + length (str "Bob")) = str "Bob" /\
    length (value input) = (length (str "Dear all, bye") - (9 - 5) + length (str "Bob"))%nat /\
    selectionStart input = Some (5 + length (str "Bob"))%nat /\
    selectionEnd input = Some (5 + length (str "Bob"))%nat.
Proof.
  assert (H : (5 <= 9 <= length (str "Dear all, bye"))%nat) by (vm_compute; lia).
  split; [exact H | ].
  exact (insertTextAtCursor_field (str "Dear all, bye") (str "Bob") 5 9 H).
Defined.





Example dictated_text_lands_in_textarea :
  let st := stopRecording_upload
              (stopRecording (run (initial (Some (textarea "Dear all, "))) dictation)) in
  currentEl (stopRecording_response (Json None (Some (str " hello world "))) st)
  = Some (textarea "Dear all, hello world").
Proof. vm_compute. reflexivity. Qed.

End Insertion.

(** ** The streaming client: partial results, live text, the end of a session *)

Module StreamingSessions.
Import Streaming StreamingFacts.

#[local] Arguments str : simpl never.
#[local] Arguments trim : simpl never.

Ltac by_cases :=
  repeat (cbn;
          match goal with
          | H : ?f ?s = _ |- context [?f ?s] => is_var s; rewrite H
          | |- context [match ?f ?s with _ => _ end] => is_var s; destruct (f s) eqn:?
          | |- context [match ?e with Field _ => _ | Editor _ => _ end] =>
              is_var e; destruct e
          | |- context [match ?r with CONNECTING => _ | _ => _ end] =>
              is_var r; destruct r
          end);
  cbn.

(** X13: once a partial result has been accepted, whatever arrives within the
    next 250 ms is dropped, and so is the same text whenever it arrives
    again: nothing changes. *)
Theorem debounce_after_accept (st : State) (raw : option text) (now : Z) :
  throttle_passes (lastPartial st) (lastPartialTs st) (trim (default [] raw)) now ->
  let st1 := handleWsMessage now (Partial raw) st in
  (forall raw' now', now' - now < 250 -> handleWsMessage now' (Partial raw') st1 = st1)
  /\ (forall now', handleWsMessage now' (Partial raw) st1 = st1).
Proof.
  intros H. cbv zeta.
  destruct (handle_partial_outcome st raw now) as [(_ & Ht & Hts & _) | [Hn _]];
    [ | contradiction].
  set (st1 := handleWsMessage now (Partial raw) st) in *.
  split.
  - intros raw' now' Hd.
    destruct (handle_partial_outcome st1 raw' now') as [(P & _) | [_ E]]; [ | exact E].
    rewrite Hts in P. destruct P as (_ & _ & _ & P & _). lia.
  - intros now'.
    destruct (handle_partial_outcome st1 raw now') as [(P & _) | [_ E]]; [ | exact E].
    rewrite Ht in P. destruct P as (_ & _ & P & _). congruence.
Qed.

Lemma debounce_after_accept_witness :
  let st := streaming (Some (textarea "Dear all, ")) in
  let raw := Some (str " hello wor") in
  let st1 := handleWsMessage 1000 (Partial raw) st in
  throttle_passes (lastPartial st) (lastPartialTs st) (trim (default [] raw)) 1000 /\
  (forall raw' now', now' - 1000 < 250 -> handleWsMessage now' (Partial raw') st1 = st1)
  /\ (forall now', handleWsMessage now' (Partial raw) st1 = st1).
Proof.
  intros st raw st1.
  assert (H : throttle_passes (lastPartial st) (lastPartialTs st) (trim (default [] raw)) 1000)
    by (apply partialAccepted_spec; vm_compute; reflexivity).
  split; [exact H | exact (debounce_after_accept st raw 1000 H)].
Defined.

Lemma take_inserted (v t after : text) (start : nat) :
  (start <= length v)%nat -> take start (take start v ++ t ++ after) = take start v.
Proof.
  intros H. rewrite take_app_le by (rewrite length_take; lia).
  rewrite take_take. f_equal. lia.
Qed.

Lemma drop_inserted (v t after : text) (start : nat) :
  (start <= length v)%nat ->
  drop (start + length t) (take start v ++ t ++ after) = after.
Proof.
  intros H. rewrite app_assoc.
  apply drop_app_length'. rewrite length_app, length_take. lia.
Qed.

(** X14: live text is replaced, not accumulated: showing a first partial and
    then a second one leaves the client and the target as if only the
    second had been shown. *)
Theorem live_text_replaced (el : Element) (t1 t2 : text) (st : State) :
  targetOk st el ->
  match currentEl (updateLiveText el t1 st) with
  | Some el1 => updateLiveText el1 t2 (updateLiveText el t1 st) = updateLiveText el t2 st
  | None => False
  end.
Proof.
  unfold targetOk, updateLiveText. destruct el as [input | e]; intros H.
  - assert (G : forall start after, (start <= length (value input))%nat ->
       take start (take start (value input) ++ t1 ++ after) ++ t2
       ++ drop (start + length t1) (take start (value input) ++ t1 ++ after)
       = take start (value input) ++ t2 ++ after).
    { intros start after Hs. now rewrite take_inserted, drop_inserted. }
    destruct (liveStartIdx st) as [start | ] eqn:E; cbn; rewrite ?E; cbn;
      [ | destruct (selectionStart input) as [start | ]; cbn ];
      rewrite ?drop_0, ?Nat.sub_0_r, ?E; cbn [default];
      rewrite ?Nat.add_0_r, G by (assumption || lia); reflexivity.
  - cbn. destruct (liveNode st) eqn:E; cbn.
    + destruct (liveSpan e); [reflexivity | now specialize (H eq_refl)].
    + reflexivity.
Qed.

Lemma live_text_replaced_witness :
  let el := textarea "Dear all, " in
  let st := streaming (Some el) in
  targetOk st el /\
  match currentEl (updateLiveText el (str "hello wor") st) with
  | Some el1 => updateLiveText el1 (str "hello world") (updateLiveText el (str "hello wor") st)
                = updateLiveText el (str "hello world") st
  | None => False
  end.
Proof.
  intros el st.
  assert (H : targetOk st el) by (vm_compute; lia).
  split; [exact H | exact (live_text_replaced el _ _ st H)].
Defined.

End StreamingSessions.

Module StreamingEnd.
Import Streaming StreamingFacts StreamingSessions.

#[local] Arguments str : simpl never.
#[local] Arguments trim : simpl never.

Lemma set_value_inserted (v t : text) (start : nat) :
  (start <= length v)%nat ->
  set_value (take start v ++ t ++ drop start v) (start + length t)
  = {| value := take start v ++ t ++ drop start v;
       selectionStart := Some (start + length t)%nat;
       selectionEnd := Some (start + length t)%nat |}.
Proof.
  intros H. unfold set_value. rewrite Nat.min_l; [reflexivity | ].
  rewrite !length_app, length_take, length_drop. lia.
Qed.

(** A text field in which dictation has not begun: no live text is being
    tracked and the cursor lies within the value. *)
Definition idleField (st : State) (input : TextField) (start : nat) : Prop :=
  currentEl st = Some (Field input) /\
  liveStartIdx st = None /\
  selectionStart input = Some start /\
  (start <= length (value input))%nat.

Definition closed (st : State) : Prop :=
  isRecording st = false /\ ws st = None /\ audioCtx st = None /\
  lastPartial st = [] /\ lastPartialTs st = 0.

(** No live text is being tracked. *)
Definition untracked (st : State) : Prop :=
  liveStartIdx st = None /\ livePrevLen st = 0%nat /\ liveNode st = false.


(** X16: the final transcript takes the place of the live text: it is put
    where the dictation began, the rest of the field is as before. *)
Theorem final_replaces_live_text (st : State) (input : TextField) (start : nat)
        (t : text) (raw : option text) (now : Z) :
  idleField st input start ->
  let final := trim (default [] raw) in
  let st' := handleWsMessage now (Final raw) (updateLiveText (Field input) t st) in
  currentEl st'
  = Some (Field {| value := take start (value input) ++ final ++ drop start (value input);
                   selectionStart := Some (start + length final)%nat;
                   selectionEnd := Some (start + length final)%nat |}).
Proof.
  intros (Hel & Hidx & Hsel & Hle). cbv zeta.
  unfold handleWsMessage, updateLiveText, finalizeLiveText, cleanupStreaming,
    cleanupAudioGraph, resetLiveState, resetBtn, setBtn, showToast, emit.
  rewrite Hidx, Hsel. cbn.
  destruct (trim (default [] raw)) as [ | c final] eqn:Et;
    [ pose proof (set_value_inserted (value input) [] start Hle) as G
    | pose proof (set_value_inserted (value input) (c :: final) start Hle) as G ];
    cbn [app length] in G; rewrite ?Nat.add_0_r in G;
    by_cases;
    rewrite ?drop_0, ?Nat.sub_0_r, ?Nat.add_0_r;
    rewrite take_inserted, drop_inserted by assumption;
    now rewrite G.
Qed.

Lemma final_replaces_live_text_witness :
  let st := streaming (Some (textarea "Dear all, ")) in
  let input := {| value := str "Dear all, "; selectionStart := Some 10%nat;
                  selectionEnd := Some 10%nat |} in
  let raw := Some (str " hello world. ") in
  let final := trim (default [] raw) in
  let st' := handleWsMessage 5000 (Final raw) (updateLiveText (Field input) (str "hello wor") st) in
  idleField st input 10 /\
  currentEl st'
  = Some (Field {| value := take 10 (value input) ++ final ++ drop 10 (value input);
                   selectionStart := Some (10 + length final)%nat;
                   selectionEnd := Some (10 + length final)%nat |}).
Proof.
  intros st input raw final st'.
  assert (H : idleField st input 10) by (repeat split; vm_compute; lia).
  split; [exact H | ].
  exact (final_replaces_live_text st input 10 (str "hello wor") raw 5000 H).
Defined.

(** X17: an error message of the server cancels the session: the session is
    closed and the field is as it was before the dictation, the cursor back
    where the dictation began. *)
Theorem error_restores_field (st : State) (input : TextField) (start : nat)
        (t message : text) (now : Z) :
  idleField st input start ->
  let st' := handleWsMessage now (Error message) (updateLiveText (Field input) t st) in
  closed st' /\ untracked st' /\
  currentEl st' = Some (Field {| value := value input; selectionStart := Some start;
                                 selectionEnd := Some start |}).
Proof.
  intros (Hel & Hidx & Hsel & Hle). cbv zeta.
  unfold closed, untracked, handleWsMessage, updateLiveText, clearLiveText, cleanupStreaming,
    cleanupAudioGraph, resetLiveState, resetBtn, setBtn, showToast, emit.
  rewrite Hidx, Hsel. cbn.
  assert (G : take start (take start (value input) ++ t ++ drop start (value input))
              ++ drop (start + length t)
                   (take start (value input) ++ t ++ drop start (value input))
              = value input).
  { rewrite take_inserted, drop_inserted by assumption. apply take_drop. }
  by_cases; rewrite ?drop_0, ?Nat.sub_0_r, ?Nat.add_0_r, ?G;
    repeat split; auto;
    unfold set_value; repeat f_equal;
    rewrite take_inserted, length_take by assumption; lia.
Qed.

Lemma error_restores_field_witness :
  let st := streaming (Some (textarea "Dear all, ")) in
  let input := {| value := str "Dear all, "; selectionStart := Some 10%nat;
                  selectionEnd := Some 10%nat |} in
  let st' := handleWsMessage 5000 (Error (str "decode failed"))
               (updateLiveText (Field input) (str "hello wor") st) in
  idleField st input 10 /\
  closed st' /\ untracked st' /\
  currentEl st' = Some (Field {| value := value input; selectionStart := Some 10%nat;
                                 selectionEnd := Some 10%nat |}).
Proof.
  intros st input st'.
  assert (H : idleField st input 10) by (repeat split; vm_compute; lia).
  split; [exact H | ].
  exact (error_restores_field st input 10 (str "hello wor") (str "decode failed") 5000 H).
Defined.

(** X18: a block is sent only over an open socket, while the capture is live,
    and never as an empty message; the handler does nothing else. *)
Theorem audio_sent_only_when_open (input : list float) (st : State) :
  onaudioprocess input st = st \/
  exists sampleRate down,
    ws st = Some OPEN /\ audioCtx st = Some sampleRate /\
    downsampleFloat32 input sampleRate STREAM_SAMPLE_RATE = Some down /\
    down <> [] /\
    onaudioprocess input st = emit (WsSend (Audio down)) st.
Proof.
  unfold onaudioprocess, wsSend.
  destruct (ws st) as [[ | | | ] | ] eqn:Ews; auto.
  destruct (audioCtx st) as [sampleRate | ] eqn:Ectx; auto.
  destruct (downsampleFloat32 input sampleRate STREAM_SAMPLE_RATE) as [[ | z down] | ] eqn:Ed;
    auto.
  right. exists sampleRate, (z :: down). repeat split; auto; discriminate.
Qed.

(** X19: a second stop does nothing, so [Stop] is sent once at most; the first
    one sends it when the socket is open, and only then. *)
Theorem stop_sent_once (st : State) :
  stopRecording (stopRecording st) = stopRecording st /\
  (isRecording st = true ->
   effects (stopRecording st)
   = effects st ++ Toast (str "Transcribing" ++ [ellipsis]) info 3200
       :: match ws st with Some OPEN => [WsSend Stop] | _ => [] end).
Proof.
  split.
  - assert (H : isRecording (stopRecording st) = false).
    { unfold stopRecording, setBtnProcessing, setBtn, showToast, wsSend, emit,
        cleanupAudioGraph.
      destruct (isRecording st) eqn:E; [ | exact E]. by_cases; reflexivity. }
    generalize dependent (stopRecording st). intros st' H.
    unfold stopRecording. now rewrite H.
  - intros H. unfold stopRecording, setBtnProcessing, setBtn, showToast, wsSend, emit,
      cleanupAudioGraph.
    rewrite H. by_cases; rewrite <- ?app_assoc; reflexivity.
Qed.


End StreamingEnd.

(** ** Server settings ([getServerConfig], [getServerUrl], [getWsUrl], the popup)

    The popup stores the protocol and the base (host and port) in
    [chrome.storage.local]; the content scripts read them back. *)

Module Settings.

(** [chrome.storage.local], when the page has it: the two keys, each
    possibly missing. *)
Record Storage := {
  server_protocol : option text;
  server_base : option text
}.

Definition DEFAULT_SERVER_BASE : text := str "127.0.0.1:8020".

(** [x || d] on a value that is a string or missing: the empty string is
    falsy. *)
Definition or_default (x : option text) (d : text) : text :=
  match x with
  | Some (c :: s) => c :: s
  | Some [] | None => d
  end.

(** The batch client, [content.ts]. *)
Definition batch_getServerConfig (storage : option Storage) : text * text :=
  match storage with
  | Some result =>
      let protocol := or_default (server_protocol result) (str "http") in
      let protocol := if text_eqb protocol (str "ws") then str "http" else protocol in
      let protocol := if text_eqb protocol (str "wss") then str "https" else protocol in
      let base := or_default (server_base result) DEFAULT_SERVER_BASE in
      (protocol, base)
  | None => (str "http", DEFAULT_SERVER_BASE)
  end.

Definition getServerUrl (storage : option Storage) : text :=
  let cfg := batch_getServerConfig storage in
  fst cfg ++ str "://" ++ snd cfg.

(** The streaming client. *)
Definition streaming_getServerConfig (storage : option Storage) : text * text :=
  match storage with
  | Some result =>
      (or_default (server_protocol result) (str "ws"),
       or_default (server_base result) DEFAULT_SERVER_BASE)
  | None => (str "ws", DEFAULT_SERVER_BASE)
  end.

Definition getWsUrl (storage : option Storage) : text :=
  let cfg := streaming_getServerConfig storage in
  fst cfg ++ str "://" ++ snd cfg ++ str "/asr".

(** The popup: its two state variables, the choice of the protocol being
    that of the [<select>]. *)
Inductive WsProtocol := ws | wss.

Definition protocol_text (p : WsProtocol) : text :=
  match p with ws => str "ws" | wss => str "wss" end.

Record Popup := {
  serverProtocol : text;
  serverBase : text
}.

Definition popup_initial : Popup :=
  {| serverProtocol := str "ws"; serverBase := str "127.0.0.1:8020" |}.

(** The callback of [storage.local.get] in the effect run on mount. *)
Definition popup_load (res : Storage) (p : Popup) : Popup :=
  let p := match server_protocol res with
           | Some (c :: s) => {| serverProtocol := c :: s; serverBase := serverBase p |}
           | _ => p
           end in
  match server_base res with
  | Some (c :: s) => {| serverProtocol := serverProtocol p; serverBase := c :: s |}
  | _ => p
  end.

Definition wsUrl (p : Popup) : text :=
  serverProtocol p ++ str "://" ++ serverBase p ++ str "/asr".

(** What [saveSettings] writes. *)
Definition saveSettings (p : Popup) : Storage :=
  {| server_protocol := Some (serverProtocol p); server_base := Some (serverBase p) |}.

Lemma or_default_nonempty (x d : text) : x <> [] -> or_default (Some x) d = x.
Proof. destruct x; [congruence | reflexivity]. Qed.

(** X21: settings saved from the popup come back: with a protocol of the
    select and a base that is not empty, the streaming client connects to
    the very endpoint the popup shows and probes, and a popup opened later
    shows the saved settings.  With an empty base the streaming client
    falls back to the default host, which the popup does not. *)
Theorem settings_round_trip (protocol : WsProtocol) (base : text) :
  let p := {| serverProtocol := protocol_text protocol; serverBase := base |} in
  let storage := saveSettings p in
  (base <> [] ->
   getWsUrl (Some storage) = wsUrl p /\ popup_load storage popup_initial = p)
  /\ (base = [] ->
      getWsUrl (Some storage) = protocol_text protocol ++ str "://127.0.0.1:8020/asr"
      /\ wsUrl p = protocol_text protocol ++ str ":///asr").
Proof.
  cbv zeta. split.
  - intros H. unfold getWsUrl, wsUrl, streaming_getServerConfig, popup_load, saveSettings.
    cbn [server_protocol server_base serverProtocol serverBase fst snd].
    rewrite (or_default_nonempty base _ H).
    destruct base as [ | c base]; [congruence | ].
    destruct protocol; split; reflexivity.
  - intros ->. destruct protocol; split; reflexivity.
Qed.

(** X22: the batch client turns the popup's WebSocket protocols into their
    HTTP counterparts, so that it posts to the server the popup was set up
    for; without any stored setting it posts to the local default. *)
Theorem batch_url_of_settings (protocol : WsProtocol) (base : text) :
  (base <> [] ->
   getServerUrl (Some (saveSettings {| serverProtocol := protocol_text protocol;
                                       serverBase := base |}))
   = (match protocol with ws => str "http" | wss => str "https" end) ++ str "://" ++ base)
  /\ getServerUrl None = str "http://127.0.0.1:8020"
  /\ getServerUrl (Some {| server_protocol := None; server_base := None |})
     = str "http://127.0.0.1:8020".
Proof.
  split; [ | split; reflexivity].
  intros H. unfold getServerUrl, batch_getServerConfig, saveSettings.
  cbn [server_protocol server_base serverProtocol serverBase].
  rewrite (or_default_nonempty base _ H).
  destruct protocol; reflexivity.
Qed.

End Settings.

(** ** Which elements get the mic button ([isEditable]) *)

Module Editable.

(** What [isEditable] reads of an element.  [readOnly] and [disabled] are
    missing on elements that are no form controls, which counts as false. *)
Record Attributes := {
  isHTMLElement : bool;
  tagName : text;
  type_ : text;
  isContentEditable : bool;
  contenteditable : option text;
  hasClassProseMirror : bool;
  id : text;
  visibility : text;
  display : text;
  readOnly : bool;
  disabled : bool
}.

Definition textTypes : list text :=
  [str "text"; str "search"; str "url"; str "email"; str "tel"; str "number"].

Definition includes (l : list text) (x : text) : bool :=
  existsb (text_eqb x) l.

Definition isEditable (el : option Attributes) : bool :=
  match el with
  | None => false
  | Some el =>
      if negb (isHTMLElement el) then false
      else
        let tag := tagName el in
        let editable :=
          isContentEditable el
          || match contenteditable el with Some a => text_eqb a (str "true") | None => false end
          || text_eqb tag (str "TEXTAREA")
          || (text_eqb tag (str "INPUT") && includes textTypes (type_ el))
          || hasClassProseMirror el
          || text_eqb (id el) (str "prompt-textarea") in
        if negb editable then false
        else if text_eqb tag (str "INPUT") && text_eqb (type_ el) (str "password") then false
        else if text_eqb (visibility el) (str "hidden")
                || text_eqb (display el) (str "none")
                || readOnly el || disabled el then false
        else true
  end.

(** X23: the mic button is never offered on a password input, on a hidden
    element, or on a control that is read-only or disabled, however
    editable the element is otherwise. *)
Theorem isEditable_excludes (el : Attributes) :
  isEditable (Some el) = true ->
  ~ (tagName el = str "INPUT" /\ type_ el = str "password") /\
  visibility el <> str "hidden" /\ display el <> str "none" /\
  readOnly el = false /\ disabled el = false.
Proof.
  unfold isEditable, text_eqb.
  destruct (isHTMLElement el); cbn [negb]; [ | discriminate].
  match goal with |- context [negb ?e] => destruct e end; cbn [negb]; [ | discriminate].
  destruct (bool_decide (tagName el = str "INPUT")) eqn:Etag;
    destruct (bool_decide (type_ el = str "password")) eqn:Etype; cbn [andb];
    try discriminate;
    (destruct (bool_decide (visibility el = str "hidden")) eqn:Ev; cbn [orb];
     [discriminate | ];
     destruct (bool_decide (display el = str "none")) eqn:Ed; cbn [orb];
     [discriminate | ];
     destruct (readOnly el); cbn [orb]; [discriminate | ];
     destruct (disabled el); [discriminate | ];
     intros _;
     apply bool_decide_eq_false in Ev, Ed;
     repeat split; auto;
     intros [H1 H2];
     first [ apply bool_decide_eq_false in Etag; contradiction
           | apply bool_decide_eq_false in Etype; contradiction ]).
Qed.

Definition textareaAttributes : Attributes :=
  {| isHTMLElement := true; tagName := str "TEXTAREA"; type_ := str "textarea";
     isContentEditable := false; contenteditable := None; hasClassProseMirror := false;
     id := str "message"; visibility := str "visible"; display := str "block";
     readOnly := false; disabled := false |}.

Lemma isEditable_excludes_witness :
  isEditable (Some textareaAttributes) = true /\
  ~ (tagName textareaAttributes = str "INPUT" /\ type_ textareaAttributes = str "password") /\
  visibility textareaAttributes <> str "hidden" /\
  display textareaAttributes <> str "none" /\
  readOnly textareaAttributes = false /\ disabled textareaAttributes = false.
Proof.
  assert (H : isEditable (Some textareaAttributes) = true) by reflexivity.
  split; [exact H | exact (isEditable_excludes textareaAttributes H)].
Defined.

End Editable.

(** ** The popup's connection probe ([checkServerStatus]) *)

Module Probe.

(** The promise of [checkServerStatus]: [settled] is its flag, [resolved]
    the calls of [resolve] in order, [timer] tells whether the 2500 ms
    timer is armed, [closes] counts the calls of [sock.close()]. *)
Record State := {
  settled : bool;
  resolved : list bool;
  timer : bool;
  closes : nat
}.

(** After [new WebSocket(url)] has succeeded and the timer is set. *)
Definition started : State :=
  {| settled := false; resolved := []; timer := true; closes := 0 |}.

(** When [new WebSocket(url)] throws. *)
Definition failed : State :=
  {| settled := false; resolved := [false]; timer := false; closes := 0 |}.

Inductive Event := Opened | Errored | Closed | TimedOut.

Definition onopen (st : State) : State :=
  if settled st then st
  else {| settled := true; resolved := resolved st ++ [true]; timer := false;
          closes := S (closes st) |}.

Definition onerror (st : State) : State :=
  if settled st then st
  else {| settled := true; resolved := resolved st ++ [false]; timer := false;
          closes := closes st |}.

(** The callback of the timer; a cleared timer does not fire. *)
Definition ontimeout (st : State) : State :=
  if timer st then
    let st := {| settled := settled st; resolved := resolved st; timer := false;
                 closes := closes st |} in
    if settled st then st
    else {| settled := true; resolved := resolved st ++ [false]; timer := false;
            closes := S (closes st) |}
  else st.

Definition step (st : State) (ev : Event) : State :=
  match ev with
  | Opened => onopen st
  | Errored => onerror st
  | Closed => st
  | TimedOut => ontimeout st
  end.

Definition run (events : list Event) : State := fold_left step events started.

(** What the promise resolves to: only its first resolution counts. *)
Definition outcome (st : State) : option bool := head (resolved st).

(** The status the popup shows for an outcome. *)
Inductive Status := checking | online | offline.

Definition statusOf (ok : option bool) : Status :=
  match ok with
  | Some true => online
  | Some false => offline
  | None => checking
  end.

(** The first event that decides: a close alone decides nothing. *)
Fixpoint decisive (events : list Event) : option Event :=
  match events with
  | [] => None
  | Closed :: rest => decisive rest
  | ev :: _ => Some ev
  end.

Lemma settled_stays (events : list Event) : forall st,
  settled st = true -> timer st = false ->
  fold_left step events st = st.
Proof.
  induction events as [ | ev events IH]; intros st Hs Ht; [reflexivity | ].
  cbn [fold_left]. replace (step st ev) with st; [now apply IH | ].
  destruct ev; cbn; unfold onopen, onerror, ontimeout; now rewrite ?Hs, ?Ht.
Qed.

(** X24: the probe reports the server online exactly when the socket opens
    before it errors and before 2500 ms have passed; whatever comes after
    the first deciding event changes nothing, the promise is resolved once
    at most, and the socket is closed by the probe after an opening or a
    time-out. *)
Theorem probe_outcome (events : list Event) :
  let st := run events in
  outcome st = match decisive events with
               | Some Opened => Some true
               | Some _ => Some false
               | None => None
               end
  /\ (length (resolved st) <= 1)%nat
  /\ closes st = match decisive events with
                 | Some Opened | Some TimedOut => 1%nat
                 | _ => 0%nat
                 end
  /\ (statusOf (outcome st) = online <-> decisive events = Some Opened).
Proof.
  cbv zeta. unfold run.
  assert (G : outcome (fold_left step events started)
              = match decisive events with
                | Some Opened => Some true
                | Some _ => Some false
                | None => None
                end
              /\ (length (resolved (fold_left step events started)) <= 1)%nat
              /\ closes (fold_left step events started)
                 = match decisive events with
                   | Some Opened | Some TimedOut => 1%nat
                   | _ => 0%nat
                   end).
  { induction events as [ | ev events IH]; [cbn; auto | ].
    destruct ev; cbn [fold_left step decisive]; try exact IH;
      rewrite settled_stays by reflexivity; cbn; auto. }
  destruct G as (G1 & G2 & G3). repeat split; auto; rewrite G1.
  - destruct (decisive events) as [[ | | | ] | ]; cbn; congruence.
  - intros ->. reflexivity.
Qed.

End Probe.
